(** * Validation and projection of protocol and settings documents

    A shallow embedding of [main.py]: the two validators
    ([validate_protocol_file], [validate_settings_file]), the two projectors
    ([protocol_read], [settings_read]) and the command driver ([main]).

    The program is written in Python over the untyped tree that
    [yaml.safe_load] returns, so the embedding has these layers:

    - [Py]: the document values and the Python operations the program applies
      to them ([in], subscripting, [.get], [len], [set], [==], [str.join]),
      each with the exception it raises on the wrong kind of value;
    - [Eff]: an error-and-output monad: a computation returns or raises, and
      leaves a trace of the files it tried to open and of what it printed;
    - [Main]: the program, parameterised by the file system and by the YAML
      loader, in an environment where the loader fails with [YAMLError] only
      and the console prints whatever it is handed;
    - [Markup] and [Strict]: the same program in the wider environment where
      [console.print] raises what the console raises for a line or a table,
      as Rich does on a closing tag with no opening tag, and where the
      loader raises any exception.  [Main] is [Strict] with a console that
      never raises ([quiet_main]).

    Modelling boundaries.  Document values are null, booleans, integers,
    strings, sequences and mappings with scalar keys (no floats, dates or
    binary scalars).  Opening a file either fails with an [OSError] or gives
    its text.  In [Main], parsing the text either fails with a [YAMLError] or
    gives a document, and [console.print] always succeeds: a statement about
    [Main] says what the program hands to the console, in which order, and
    holds of the runs in which Rich accepts it.  In [Strict] the console is a
    parameter; [Markup] computes, for ASCII text, the [MarkupError] Rich
    raises at a closing tag with nothing to close, and nothing else of
    Rich's rendering is modelled.  Closing a file leaves no event.  The file
    system does not change during one run.  [main] starts where the arguments
    have been parsed; [read_yaml_file], which nothing calls, is left out. *)

From Stdlib Require Import List String Ascii ZArith Bool Lia DecimalString.
Import ListNotations.
Local Open Scope string_scope.
Local Open Scope list_scope.
Set Warnings "-register-all".

(* ===================================================================== *)
(** ** Python values and operations *)
(* ===================================================================== *)

Module Py.

(** Hashable scalars: what can be a mapping key or a set element. *)
Inductive atom : Type :=
| ANone
| ABool (b : bool)
| AInt (z : Z)
| AStr (s : string).

(** A parsed document.  A mapping is kept as its items in insertion order,
    which is the order [dict.items()] and iteration use; the loader builds
    mappings whose keys are pairwise different. *)
Inductive pyval : Type :=
| PAtom (a : atom)
| PList (items : list pyval)
| PDict (entries : list (atom * pyval)).

Abbreviation PStr s := (PAtom (AStr s)).
Abbreviation PNone := (PAtom ANone).

(** Python's [==] on scalars; [True == 1] and [False == 0], which is also how
    keys and set elements are identified. *)
Definition atom_eqb (x y : atom) : bool :=
  match x, y with
  | ANone, ANone => true
  | ABool a, ABool b => Bool.eqb a b
  | AInt a, AInt b => Z.eqb a b
  | ABool a, AInt b => Z.eqb (if a then 1 else 0) b
  | AInt a, ABool b => Z.eqb a (if b then 1 else 0)
  | AStr a, AStr b => String.eqb a b
  | _, _ => false
  end.

Fixpoint lookup (k : atom) (d : list (atom * pyval)) : option pyval :=
  match d with
  | [] => None
  | (k', v) :: rest => if atom_eqb k' k then Some v else lookup k rest
  end.

(** Python's [==] on documents: sequences element by element, mappings
    regardless of the order of their items. *)
Fixpoint py_eq (x y : pyval) {struct x} : bool :=
  match x, y with
  | PAtom a, PAtom b => atom_eqb a b
  | PList xs, PList ys =>
      (fix items (xs ys : list pyval) {struct xs} : bool :=
         match xs, ys with
         | [], [] => true
         | x' :: xs', y' :: ys' => py_eq x' y' && items xs' ys'
         | _, _ => false
         end) xs ys
  | PDict dx, PDict dy =>
      Nat.eqb (List.length dx) (List.length dy) &&
      (fix entries (dx : list (atom * pyval)) {struct dx} : bool :=
         match dx with
         | [] => true
         | (k, v) :: dx' =>
             match lookup k dy with
             | Some w => py_eq v w
             | None => false
             end && entries dx'
         end) dx
  | _, _ => false
  end.

(** Exceptions raised by the interpreter and the libraries, by class. *)
Inductive lib_error : Type :=
| OSError (path : string)
| YAMLError
| TypeError
| AttributeError
| KeyError (key : string)
| NotRenderableError
| MarkupError (message : string).

(** Text built by an f-string: literal pieces and interpolated values.
    [Val v] stands for [str(v)], [ErrText e] for [str(e)]. *)
Inductive frag : Type :=
| Lit (s : string)
| Val (v : pyval)
| ErrText (e : lib_error).

Definition text := list frag.

Inductive exn : Type :=
| ValueError (msg : text)
| LibError (e : lib_error).

Definition str_exn (e : exn) : text :=
  match e with
  | ValueError msg => msg
  | LibError le => [ErrText le]
  end.

Inductive result (A : Type) : Type :=
| Ok (a : A)
| Raise (e : exn).
Arguments Ok {A} a.
Arguments Raise {A} e.

Definition rbind {A B} (m : result A) (k : A -> result B) : result B :=
  match m with
  | Ok a => k a
  | Raise e => Raise e
  end.

Definition is_ok {A} (r : result A) : bool :=
  match r with Ok _ => true | Raise _ => false end.

(** [str] of a scalar. *)
Definition str_atom (a : atom) : string :=
  match a with
  | ANone => "None"
  | ABool true => "True"
  | ABool false => "False"
  | AInt z => NilZero.string_of_int (Z.to_int z)
  | AStr s => s
  end.

(** The characters a text stands for, where every interpolated value is a
    scalar ([repr] of containers and the wording of library errors are not
    modelled). *)
Fixpoint render (t : text) : option string :=
  match t with
  | [] => Some ""
  | f :: rest =>
      match f, render rest with
      | Lit s, Some r => Some (String.append s r)
      | Val (PAtom a), Some r => Some (String.append (str_atom a) r)
      | _, _ => None
      end
  end.

(** Truth value of a document value. *)
Definition truthy (v : pyval) : bool :=
  match v with
  | PAtom ANone => false
  | PAtom (ABool b) => b
  | PAtom (AInt z) => negb (Z.eqb z 0)
  | PAtom (AStr s) => negb (String.eqb s "")
  | PList l => negb (Nat.eqb (List.length l) 0)
  | PDict d => negb (Nat.eqb (List.length d) 0)
  end.

Definition is_list (v : pyval) : bool :=
  match v with PList _ => true | _ => false end.

Definition is_str (v : pyval) : bool :=
  match v with PAtom (AStr _) => true | _ => false end.

(** [len(v)]. *)
Definition py_len (v : pyval) : result nat :=
  match v with
  | PList l => Ok (List.length l)
  | PDict d => Ok (List.length d)
  | PAtom (AStr s) => Ok (String.length s)
  | PAtom _ => Raise (LibError TypeError)
  end.

Definition is_substring (sub s : string) : bool :=
  match String.index 0 sub s with Some _ => true | None => false end.

(** [key in v] for a string [key]: key membership in a mapping, element
    membership in a sequence, substring test in a string. *)
Definition py_in (key : string) (v : pyval) : result bool :=
  match v with
  | PDict d => Ok (match lookup (AStr key) d with Some _ => true | None => false end)
  | PList l => Ok (existsb (fun x => py_eq x (PStr key)) l)
  | PAtom (AStr s) => Ok (is_substring key s)
  | PAtom _ => Raise (LibError TypeError)
  end.

(** [v[key]] for a string [key]. *)
Definition py_getitem (v : pyval) (key : string) : result pyval :=
  match v with
  | PDict d =>
      match lookup (AStr key) d with
      | Some x => Ok x
      | None => Raise (LibError (KeyError key))
      end
  | _ => Raise (LibError TypeError)
  end.

(** [v.get(key, default)]: only mappings have the method. *)
Definition py_get (v : pyval) (key : string) (default : pyval) : result pyval :=
  match v with
  | PDict d =>
      match lookup (AStr key) d with
      | Some x => Ok x
      | None => Ok default
      end
  | _ => Raise (LibError AttributeError)
  end.

(** [v.items()]. *)
Definition py_items (v : pyval) : result (list (atom * pyval)) :=
  match v with
  | PDict d => Ok d
  | _ => Raise (LibError AttributeError)
  end.

Definition chars (s : string) : list pyval :=
  map (fun c => PStr (String c EmptyString)) (list_ascii_of_string s).

(** What a [for] loop over [v] visits. *)
Definition py_iter (v : pyval) : result (list pyval) :=
  match v with
  | PList l => Ok l
  | PDict d => Ok (map (fun kv => PAtom (fst kv)) d)
  | PAtom (AStr s) => Ok (chars s)
  | PAtom _ => Raise (LibError TypeError)
  end.

(** Sets of hashable values, kept as the list of their distinct elements. *)
Definition set_mem (a : atom) (s : list atom) : bool :=
  existsb (atom_eqb a) s.

Fixpoint set_of_atoms (l : list atom) : list atom :=
  match l with
  | [] => []
  | a :: rest =>
      let s := set_of_atoms rest in
      if set_mem a s then s else a :: s
  end.

Fixpoint atoms_of (l : list pyval) : result (list atom) :=
  match l with
  | [] => Ok []
  | PAtom a :: rest => rbind (atoms_of rest) (fun r => Ok (a :: r))
  | _ :: _ => Raise (LibError TypeError)
  end.

(** [set(l)]: an unhashable element (a sequence or a mapping) is a
    [TypeError]. *)
Definition py_set (l : list pyval) : result (list atom) :=
  rbind (atoms_of l) (fun la => Ok (set_of_atoms la)).

(** [v in s] for a set [s]: [v] has to be hashable. *)
Definition py_in_set (v : pyval) (s : list atom) : result bool :=
  match v with
  | PAtom a => Ok (set_mem a s)
  | _ => Raise (LibError TypeError)
  end.

Fixpoint strings_of (l : list pyval) : result (list string) :=
  match l with
  | [] => Ok []
  | PAtom (AStr s) :: rest => rbind (strings_of rest) (fun r => Ok (s :: r))
  | _ :: _ => Raise (LibError TypeError)
  end.

(** [sep.join(l)] for a list [l]: every element has to be a string. *)
Definition join_list (sep : string) (l : list pyval) : result string :=
  rbind (strings_of l) (fun ss => Ok (String.concat sep ss)).

(** [sep.join(v)] for any iterable [v]. *)
Definition py_join (sep : string) (v : pyval) : result string :=
  rbind (py_iter v) (join_list sep).

(** [sep.join] of strings the program built itself. *)
Fixpoint join_text (sep : string) (l : list text) : text :=
  match l with
  | [] => []
  | [t] => t
  | t :: rest => t ++ Lit sep :: join_text sep rest
  end.

(** [s.endswith(suffix)]. *)
Definition endswith (s suffix : string) : bool :=
  let n := String.length s in
  let m := String.length suffix in
  Nat.leb m n && String.eqb (String.substring (n - m) m s) suffix.

End Py.

(* ===================================================================== *)
(** ** Rich tables *)
(* ===================================================================== *)

Module Rich.
Import Py.

(** A table: its column headers and the rows added so far, oldest first. *)
Record table : Type := Table { columns : list string; rows : list (list text) }.

Definition new_table (headers : list string) : table := Table headers [].

(** What the program passes to [add_row]: a value of the document, or a
    string it built. *)
Inductive cell : Type :=
| CVal (v : pyval)
| CText (t : text).

(** [Table.add_row] accepts a string, and [None] as the empty string; any
    other object is a [NotRenderableError]. *)
Definition renderable (c : cell) : result text :=
  match c with
  | CText t => Ok t
  | CVal (PAtom (AStr s)) => Ok [Lit s]
  | CVal (PAtom ANone) => Ok [Lit ""]
  | CVal _ => Raise (LibError NotRenderableError)
  end.

Fixpoint renderables (cs : list cell) : result (list text) :=
  match cs with
  | [] => Ok []
  | c :: rest =>
      rbind (renderable c) (fun t =>
      rbind (renderables rest) (fun ts => Ok (t :: ts)))
  end.

Definition add_row (t : table) (cs : list cell) : result table :=
  rbind (renderables cs) (fun r => Ok (Table (columns t) (rows t ++ [r]))).

End Rich.

(* ===================================================================== *)
(** ** Computations: a result or an exception, and a trace *)
(* ===================================================================== *)

Module Eff.
Import Py Rich.

(** What a run leaves behind, in order: attempts to open a file, lines
    printed on the console, tables printed on the console. *)
Inductive event : Type :=
| Open (path : string)
| Print (msg : text)
| PrintTable (t : table).

Definition trace := list event.

Definition M (A : Type) : Type := (result A * trace)%type.

Definition ret {A} (a : A) : M A := (Ok a, []).
Definition lift {A} (r : result A) : M A := (r, []).
Definition emit (ev : event) : M unit := (Ok tt, [ev]).

Definition bind {A B} (m : M A) (k : A -> M B) : M B :=
  match m with
  | (Ok a, t) => let (r, t') := k a in (r, t ++ t')
  | (Raise e, t) => (Raise e, t)
  end.

(** [try: body except ...]: [handler e] is the clause that catches [e], if
    any.  An exception raised inside a clause is not caught by the others. *)
Definition try_except {A} (body : M A) (handler : exn -> option (M A)) : M A :=
  match body with
  | (Ok a, t) => (Ok a, t)
  | (Raise e, t) =>
      match handler e with
      | Some h => let (r, t') := h in (r, t ++ t')
      | None => (Raise e, t)
      end
  end.

Definition outcome {A} (m : M A) : result A := fst m.
Definition output {A} (m : M A) : trace := snd m.

Definition console_print (msg : text) : M unit := emit (Print msg).
Definition console_print_table (t : table) : M unit := emit (PrintTable t).

End Eff.

Declare Scope eff_scope.
Delimit Scope eff_scope with eff.
Notation "x <- m ;; k" := (Eff.bind m (fun x => k))
  (at level 61, m at next level, right associativity) : eff_scope.
Notation "m ;; k" := (Eff.bind m (fun _ => k))
  (at level 61, right associativity) : eff_scope.

Declare Scope res_scope.
Delimit Scope res_scope with res.
Notation "x <- m ;; k" := (Py.rbind m (fun x => k))
  (at level 61, m at next level, right associativity) : res_scope.

(* ===================================================================== *)
(** ** The program *)
(* ===================================================================== *)

Module Main.
Import Py Rich Eff.
Local Open Scope eff_scope.

(** What [validate_settings_file] returns: the pair
    [(True, "Settings file is valid.")] or [False]. *)
Inductive verdict : Type :=
| Passed (note : string)
| Failed.

(** Truth value of a verdict, as [main] tests it: a pair is true. *)
Definition verdict_truthy (v : verdict) : bool :=
  match v with Passed _ => true | Failed => false end.

Definition list_items (v : pyval) : list pyval :=
  match v with PList l => l | _ => [] end.

Definition nonempty {A} (l : list A) : bool :=
  match l with [] => false | _ :: _ => true end.

Section Program.

(** The execution environment: [fs path] is the text of the file at [path],
    or [None] when [open] fails; [safe_load text] is the parsed document, or
    [None] when the text is not well-formed YAML. *)
Variable fs : string -> option string.
Variable safe_load : string -> option pyval.

Definition read_document (file_path : string) : result pyval :=
  match fs file_path with
  | None => Raise (LibError (OSError file_path))
  | Some contents =>
      match safe_load contents with
      | None => Raise (LibError YAMLError)
      | Some content => Ok content
      end
  end.

(** [with open(file_path, "r") as file: content = yaml.safe_load(file)] *)
Definition load (file_path : string) : M pyval :=
  emit (Open file_path) ;;
  lift (read_document file_path).

(** *** protocol_read *)

Definition transition_text (from to : pyval) : text :=
  [Lit "("; Val from; Lit " -> "; Val to; Lit ")"].

(** The inner loop of [protocol_read]: [transition_info] and [event_info] for
    one state. *)
Fixpoint matching_transitions (state : pyval) (transitions : list pyval)
  : result (list text * list pyval) :=
  match transitions with
  | [] => Ok ([], [])
  | transition :: rest =>
      (from <- py_get transition "from" PNone ;;
       if py_eq from state then
         to <- py_get transition "to" PNone ;;
         event <- py_get transition "event" (PStr "N/A") ;;
         info <- matching_transitions state rest ;;
         Ok (transition_text from to :: fst info, event :: snd info)
       else matching_transitions state rest)%res
  end.

(** The cells of the row of one state. *)
Definition row_content (state : pyval) (info : list text * list pyval)
  : result (list cell) :=
  if nonempty (fst info) then
    (events <- join_list " | " (snd info) ;;
     Ok [CVal state; CText [Lit events]; CText (join_text " | " (fst info))])%res
  else
    Ok [CVal state; CText [Lit "No transitions"]; CText [Lit "No event"]].

(** The outer loop of [protocol_read]. *)
Fixpoint protocol_rows (states : list pyval) (transitions : pyval) (t : table)
  : result table :=
  match states with
  | [] => Ok t
  | state :: rest =>
      (ts <- py_iter transitions ;;
       info <- matching_transitions state ts ;;
       cells <- row_content state info ;;
       t' <- add_row t cells ;;
       protocol_rows rest transitions t')%res
  end.

Definition protocol_table (content : pyval) : result table :=
  (states <- py_get content "states" (PList []) ;;
   transitions <- py_get content "transitions" (PList []) ;;
   state_items <- py_iter states ;;
   protocol_rows state_items transitions
     (new_table ["State"; "Event"; "Transition"]))%res.

Definition protocol_read (file_path : string) : M unit :=
  content <- load file_path ;;
  protocol_name <- lift (py_get content "protocol_name" (PList [])) ;;
  console_print [Lit "Protocol: "; Val protocol_name] ;;
  table_protocol <- lift (protocol_table content) ;;
  console_print_table table_protocol.

(** *** validate_protocol_file *)

Definition required_keys : list string := ["protocol_name"; "states"; "transitions"].

Definition error_line (body : text) : text :=
  Lit "[bold red]Error:[/bold red] " :: body.

(** [for key in required_keys: if key not in content: ... return False];
    [None] when the loop runs to its end. *)
Fixpoint check_required_keys (keys : list string) (content : pyval)
  : M (option bool) :=
  match keys with
  | [] => ret None
  | key :: rest =>
      present <- lift (py_in key content) ;;
      if negb present then
        console_print (error_line [Lit "Missing key: "; Val (PStr key)]) ;;
        ret (Some false)
      else check_required_keys rest content
  end.

(** [any(t["from"] == state for t in transitions)] *)
Fixpoint any_from (state : pyval) (transitions : list pyval) : result bool :=
  match transitions with
  | [] => Ok false
  | t :: rest =>
      (from <- py_getitem t "from" ;;
       if py_eq from state then Ok true else any_from state rest)%res
  end.

(** [[state for state in states if not any(...)]] *)
Fixpoint state_with_no_transitions (states transitions : list pyval)
  : result (list pyval) :=
  match states with
  | [] => Ok []
  | state :: rest =>
      (has <- any_from state transitions ;;
       others <- state_with_no_transitions rest transitions ;;
       Ok (if has then others else state :: others))%res
  end.

(** [all(k in transition for k in keys)] *)
Fixpoint all_in (keys : list string) (transition : pyval) : result bool :=
  match keys with
  | [] => Ok true
  | k :: rest =>
      (present <- py_in k transition ;;
       if present then all_in rest transition else Ok false)%res
  end.

(** [transition["from"] not in state_set or transition["to"] not in state_set] *)
Definition outside_states (transition : pyval) (state_set : list atom)
  : result bool :=
  (from <- py_getitem transition "from" ;;
   from_in <- py_in_set from state_set ;;
   if negb from_in then Ok true
   else
     to <- py_getitem transition "to" ;;
     to_in <- py_in_set to state_set ;;
     Ok (negb to_in))%res.

(** The last loop of [validate_protocol_file]; [None] when it runs to its
    end. *)
Fixpoint check_transitions (transitions : list pyval) (state_set : list atom)
  : M (option bool) :=
  match transitions with
  | [] => ret None
  | transition :: rest =>
      complete <- lift (all_in ["from"; "to"; "event"] transition) ;;
      if negb complete then
        console_print
          (error_line [Lit "Each transition must contain 'from', 'to', and 'event'"]) ;;
        ret (Some false)
      else
        outside <- lift (outside_states transition state_set) ;;
        if outside then
          console_print
            (error_line [Lit "Invalid state in transition: "; Val transition]) ;;
          ret (Some false)
        else
          event <- lift (py_getitem transition "event") ;;
          if negb (is_str event) || negb (truthy event) then
            console_print
              (error_line [Lit "Event must be a non-empty string in transition: ";
                           Val transition]) ;;
            ret (Some false)
          else check_transitions rest state_set
  end.

Definition protocol_checks (content : pyval) : M bool :=
  missing <- check_required_keys required_keys content ;;
  match missing with
  | Some verdict => ret verdict
  | None =>
      states <- lift (py_getitem content "states") ;;
      if negb (is_list states) || Nat.ltb (List.length (list_items states)) 1 then
        console_print (error_line [Lit "States should be a non-empty list"]) ;;
        ret false
      else
        transitions <- lift (py_getitem content "transitions") ;;
        if negb (is_list transitions)
           || Nat.ltb (List.length (list_items transitions)) 1 then
          console_print (error_line [Lit "Transitions should be a non-empty list"]) ;;
          ret false
        else
          distinct <- lift (py_set (list_items states)) ;;
          if negb (Nat.eqb (List.length (list_items states)) (List.length distinct)) then
            console_print (error_line [Lit "Duplicate states found"]) ;;
            ret false
          else
            state_set <- lift (py_set (list_items states)) ;;
            dead <- lift (state_with_no_transitions (list_items states)
                            (list_items transitions)) ;;
            if nonempty dead then
              names <- lift (join_list ", " dead) ;;
              console_print
                (error_line [Lit "States with no transitions: "; Val (PStr names)]) ;;
              ret false
            else
              bad <- check_transitions (list_items transitions) state_set ;;
              match bad with
              | Some verdict => ret verdict
              | None => ret true
              end
  end.

Definition reading_error (e : exn) : text :=
  Lit "[bold red]Error reading protocol file:[/bold red] " :: str_exn e.

(** The body of the [try] statement of [validate_protocol_file]. *)
Definition protocol_body (file_path : string) : M bool :=
  content <- load file_path ;;
  protocol_checks content.

(** The only clause is [except Exception]. *)
Definition validate_protocol_file (file_path : string) : M bool :=
  try_except
    (protocol_body file_path)
    (fun e => Some (console_print (reading_error e) ;; ret false)).

(** *** settings_read *)

Fixpoint settings_rows (items : list (atom * pyval)) (t : table) : result table :=
  match items with
  | [] => Ok t
  | (machine, machine_data) :: rest =>
      (labels <- py_getitem machine_data "Initial_state" ;;
       initial_state <- py_join ", " labels ;;
       t' <- add_row t [CVal (PAtom machine); CText [Lit initial_state]] ;;
       settings_rows rest t')%res
  end.

Definition settings_read (file_path : string) : M unit :=
  content <- load file_path ;;
  console_print [Lit "Imported Settings:"] ;;
  items <- lift (py_items content) ;;
  table_settings <- lift (settings_rows items
                            (new_table ["Machine name"; "Inital state"])) ;;
  console_print_table table_settings.

(** *** validate_settings_file *)

Definition too_few_machines : text :=
  [Lit "There must be at least two machines in the settings file."].

Definition missing_initial_state (machine_name : atom) : text :=
  [Lit "Machine '"; Val (PAtom machine_name); Lit "' is missing an 'Initial_state'."].

Definition empty_initial_state (machine_name : atom) : text :=
  [Lit "Machine '"; Val (PAtom machine_name); Lit "' has no initial state defined."].

(** [for machine_name, machine_data in content.items(): ...] *)
Fixpoint check_machines (items : list (atom * pyval)) : result unit :=
  match items with
  | [] => Ok tt
  | (machine_name, machine_data) :: rest =>
      (present <- py_in "Initial_state" machine_data ;;
       if negb present then Raise (ValueError (missing_initial_state machine_name))
       else
         labels <- py_getitem machine_data "Initial_state" ;;
         if negb (truthy labels) then
           Raise (ValueError (empty_initial_state machine_name))
         else check_machines rest)%res
  end.

Definition settings_checks (content : pyval) : result verdict :=
  (n <- py_len content ;;
   if Nat.ltb n 2 then Raise (ValueError too_few_machines)
   else
     items <- py_items content ;;
     _ <- check_machines items ;;
     Ok (Passed "Settings file is valid."))%res.

Definition settings_error (e : exn) : text :=
  Lit "[bold red]Error in settings files[/bold red]: " :: str_exn e.

(** The only clause is [except ValueError]. *)
Definition validate_settings_file (file_path : string) : M verdict :=
  try_except
    (content <- load file_path ;;
     lift (settings_checks content))
    (fun e =>
       match e with
       | ValueError _ => Some (console_print (settings_error e) ;; ret Failed)
       | LibError _ => None
       end).

(** *** main *)

Definition same_file : text :=
  [Lit "Protocol file and settings file cannot be the same."].

Definition bad_extension (file_path : string) : text :=
  [Lit "The file '"; Val (PStr file_path);
   Lit "' is not a valid YAML file (must have .yaml or .yml extension)."].

Definition yaml_suffix (file_path : string) : bool :=
  endswith file_path ".yaml" || endswith file_path ".yml".

Definition ends_in_yaml (file_path : string) : Prop :=
  exists stem, file_path = (stem ++ ".yaml")%string \/ file_path = (stem ++ ".yml")%string.

(** [for file_path in [args.protocol, args.settings]: ...] *)
Fixpoint check_extensions (paths : list string) : result unit :=
  match paths with
  | [] => Ok tt
  | file_path :: rest =>
      if negb (yaml_suffix file_path) then Raise (ValueError (bad_extension file_path))
      else check_extensions rest
  end.

Definition precheck (protocol settings : string) : result unit :=
  if String.eqb protocol settings then Raise (ValueError same_file)
  else check_extensions [protocol; settings].

Definition driver_error (e : exn) : text :=
  Lit "[bold red]Error[/bold red]: " :: str_exn e.

(** The body of the [try] statement of [main]. *)
Definition main_body (protocol settings : string) : M unit :=
  lift (precheck protocol settings) ;;
  valid <- validate_protocol_file protocol ;;
  both <- (if valid then
             v <- validate_settings_file settings ;;
             ret (verdict_truthy v)
           else ret false) ;;
  if both then
    protocol_read protocol ;;
    settings_read settings
  else ret tt.

(** [main] once the arguments are parsed: [protocol] and [settings] are
    [args.protocol] and [args.settings].  Both clauses, [except ValueError]
    and [except Exception], print the same line. *)
Definition main (protocol settings : string) : M unit :=
  try_except
    (main_body protocol settings)
    (fun e =>
       match e with
       | ValueError _ => Some (console_print (driver_error e))
       | LibError _ => Some (console_print (driver_error e))
       end).


(** The status the process ends with: 0 when [main] returns, 1 when an
    exception leaves it. *)
Definition exit_status (m : M unit) : Z :=
  match outcome m with
  | Ok _ => 0
  | Raise _ => 1
  end.

End Program.

End Main.

(* ===================================================================== *)
(** ** Reading a printed table *)
(* ===================================================================== *)

Module Reading.
Import Py Rich Eff.

Fixpoint column_index (name : string) (headers : list string) : option nat :=
  match headers with
  | [] => None
  | h :: rest =>
      if String.eqb h name then Some 0
      else option_map S (column_index name rest)
  end.

(** The first row whose first cell reads [label]. *)
Definition row_of (t : table) (label : string) : option (list text) :=
  find (fun r => match r with
                 | c :: _ => match render c with
                             | Some s => String.eqb s label
                             | None => false
                             end
                 | [] => false
                 end) (rows t).

(** What is written under [column] in the row of [label]. *)
Definition cell_of (t : table) (label column : string) : option string :=
  match row_of t label, column_index column (columns t) with
  | Some r, Some i =>
      match nth_error r i with
      | Some c => render c
      | None => None
      end
  | _, _ => None
  end.

(** The tables a run printed, in order. *)
Fixpoint tables (tr : trace) : list table :=
  match tr with
  | [] => []
  | PrintTable t :: rest => t :: tables rest
  | _ :: rest => tables rest
  end.

(** The files a run tried to open, in order. *)
Fixpoint opened (tr : trace) : list string :=
  match tr with
  | [] => []
  | Open p :: rest => p :: opened rest
  | _ :: rest => opened rest
  end.

(** The lines a run printed, in order. *)
Fixpoint printed (tr : trace) : list text :=
  match tr with
  | [] => []
  | Print m :: rest => m :: printed rest
  | _ :: rest => printed rest
  end.

End Reading.

(* ===================================================================== *)
(** ** The six checks of the protocol validator, as the specification
       words them *)
(* ===================================================================== *)

(** This module is written from the specification (section 4.2), not from the
    code: six independent checks over a mapping, and a verdict that is the
    first failure in the stated order.  It is compared with
    [Main.validate_protocol_file] below.  The specification fixes what a
    failure reports; the wording of the lines is the program's. *)
Module ProtocolSpec.
Import Py.

Definition document := list (atom * pyval).

Inductive diagnostic : Type :=
| MissingKey (key : string)
| StatesNotSequence
| TransitionsNotSequence
| DuplicateStates
| DeadStates (states : list pyval)
| IncompleteTransition
| InvalidState (transition : pyval)
| BadEvent (transition : pyval).

Definition has_key (key : string) (d : document) : bool :=
  match lookup (AStr key) d with Some _ => true | None => false end.

Definition states_of (d : document) : list pyval :=
  match lookup (AStr "states") d with Some (PList l) => l | _ => [] end.

Definition transitions_of (d : document) : list pyval :=
  match lookup (AStr "transitions") d with Some (PList l) => l | _ => [] end.

Definition field (name : string) (transition : pyval) : option pyval :=
  match transition with
  | PDict t => lookup (AStr name) t
  | _ => None
  end.

(** 1. Presence of the top-level keys. *)
Definition check_keys (d : document) : option diagnostic :=
  option_map MissingKey
    (find (fun key => negb (has_key key d)) ["protocol_name"; "states"; "transitions"]).

Definition sequence_of_length_1 (v : option pyval) : bool :=
  match v with Some (PList (_ :: _)) => true | _ => false end.

(** 2. [states] is a sequence with length at least 1. *)
Definition check_state_sequence (d : document) : option diagnostic :=
  if sequence_of_length_1 (lookup (AStr "states") d) then None
  else Some StatesNotSequence.

(** 3. [transitions] is a sequence with length at least 1. *)
Definition check_transition_sequence (d : document) : option diagnostic :=
  if sequence_of_length_1 (lookup (AStr "transitions") d) then None
  else Some TransitionsNotSequence.

Fixpoint has_duplicate (l : list pyval) : bool :=
  match l with
  | [] => false
  | x :: rest => existsb (py_eq x) rest || has_duplicate rest
  end.

(** 4. No duplicate entries in [states]. *)
Definition check_duplicates (d : document) : option diagnostic :=
  if has_duplicate (states_of d) then Some DuplicateStates else None.

(** [transition] leaves [state]: its [from] field is [state]. *)
Definition leaves (state transition : pyval) : bool :=
  match field "from" transition with
  | Some from => py_eq from state
  | None => false
  end.

Definition dead (d : document) : list pyval :=
  filter (fun state => negb (existsb (leaves state) (transitions_of d))) (states_of d).

(** 5. Every state is the [from] of some transition; the failure lists all
    the states that are not. *)
Definition check_dead (d : document) : option diagnostic :=
  match dead d with
  | [] => None
  | states => Some (DeadStates states)
  end.

Definition declared (d : document) (v : pyval) : bool :=
  existsb (py_eq v) (states_of d).

Definition nonempty_string (v : pyval) : bool :=
  match v with
  | PAtom (AStr s) => negb (String.eqb s "")
  | _ => false
  end.

Definition fault (d : document) (transition : pyval) : option diagnostic :=
  match field "from" transition, field "to" transition, field "event" transition with
  | Some from, Some to, Some event =>
      if negb (declared d from && declared d to) then Some (InvalidState transition)
      else if nonempty_string event then None
      else Some (BadEvent transition)
  | _, _, _ => Some IncompleteTransition
  end.

Fixpoint first_fault (d : document) (transitions : list pyval) : option diagnostic :=
  match transitions with
  | [] => None
  | t :: rest =>
      match fault d t with
      | Some f => Some f
      | None => first_fault d rest
      end
  end.

(** 6. Every transition has its three fields, [from] and [to] are declared
    states, and [event] is a non-empty string. *)
Definition check_each_transition (d : document) : option diagnostic :=
  first_fault d (transitions_of d).

Definition checks : list (document -> option diagnostic) :=
  [check_keys; check_state_sequence; check_transition_sequence; check_duplicates;
   check_dead;
   check_each_transition].

(** The checks in order, stopping at the first that fails. *)
Fixpoint first_failure (cs : list (document -> option diagnostic)) (d : document)
  : option diagnostic :=
  match cs with
  | [] => None
  | c :: rest =>
      match c d with
      | Some f => Some f
      | None => first_failure rest d
      end
  end.

Definition verdict (d : document) : option diagnostic := first_failure checks d.

(** The line a diagnostic is reported with.  The states of [DeadStates] are
    joined with a comma, which needs them to be strings. *)
Definition line (f : diagnostic) : option text :=
  let error body := Some (Lit "[bold red]Error:[/bold red] " :: body) in
  match f with
  | MissingKey key => error [Lit "Missing key: "; Val (PStr key)]
  | StatesNotSequence => error [Lit "States should be a non-empty list"]
  | TransitionsNotSequence => error [Lit "Transitions should be a non-empty list"]
  | DuplicateStates => error [Lit "Duplicate states found"]
  | DeadStates states =>
      match strings_of states with
      | Ok names =>
          error [Lit "States with no transitions: "; Val (PStr (String.concat ", " names))]
      | Raise _ => None
      end
  | IncompleteTransition =>
      error [Lit "Each transition must contain 'from', 'to', and 'event'"]
  | InvalidState t => error [Lit "Invalid state in transition: "; Val t]
  | BadEvent t => error [Lit "Event must be a non-empty string in transition: "; Val t]
  end.

End ProtocolSpec.

(* ===================================================================== *)
(** ** Vocabulary of the statements *)
(* ===================================================================== *)

Module Shape.
Import Py Rich Eff Reading.

(** A computation that opens no file and prints no table. *)
Definition prints_only {A} (m : M A) : Prop :=
  opened (output m) = [] /\ tables (output m) = [].

(** How a validation step may end: it returns success or raises having
    printed nothing, or returns failure having printed one line. *)
Definition verdict_trace (m : M bool) : Prop :=
  match m with
  | (Ok true, t) => t = []
  | (Ok false, t) => exists msg, t = [Print msg]
  | (Raise _, t) => t = []
  end.

(** The same for a loop with an early [return False]. *)
Definition loop_trace (m : M (option bool)) : Prop :=
  match m with
  | (Ok None, t) => t = []
  | (Ok (Some b), t) => b = false /\ exists msg, t = [Print msg]
  | (Raise _, t) => t = []
  end.

(** Scalars up to Python's [==]: a boolean is the integer 0 or 1. *)
Definition atom_code (a : atom) : (unit + Z) + string :=
  match a with
  | ANone => inl (inl tt)
  | ABool b => inl (inr (if b then 1 else 0)%Z)
  | AInt z => inl (inr z)
  | AStr s => inr s
  end.

(** A transition that is a mapping with a [from] field. *)
Definition has_from (transition : pyval) : Prop :=
  exists from, ProtocolSpec.field "from" transition = Some from.

Definition initial_state_of (machine_data : pyval) : option pyval :=
  match machine_data with
  | PDict m => lookup (AStr "Initial_state") m
  | _ => None
  end.

(** A machine entry with a non-empty [Initial_state]. *)
Definition ready (entry : atom * pyval) : bool :=
  match initial_state_of (snd entry) with
  | Some labels => truthy labels
  | None => false
  end.

(** A state that [add_row] accepts in the State column: a string or null. *)
Definition renderable_state (state : pyval) : bool :=
  is_ok (renderable (CVal state)).

End Shape.

(* ===================================================================== *)
(** ** A small file system *)
(* ===================================================================== *)

(** Files used to run the program on concrete inputs.  Each file is given by
    its text, and the loader by the documents these texts parse to. *)
Module Sample.
Import Py.

Definition transition (from to event : string) : pyval :=
  PDict [(AStr "from", PStr from); (AStr "to", PStr to); (AStr "event", PStr event)].

Definition protocol (name : string) (states : list string) (transitions : list pyval)
  : pyval :=
  PDict [(AStr "protocol_name", PStr name);
         (AStr "states", PList (map (fun s => PStr s) states));
         (AStr "transitions", PList transitions)].

Definition machine (name : string) (initial : list string) : atom * pyval :=
  (AStr name, PDict [(AStr "Initial_state", PList (map (fun s => PStr s) initial))]).

(** Parsed documents, by text. *)
Definition documents : list (string * pyval) :=
  [ ("{protocol_name: pingpong, states: [A, B], transitions: [{from: A, to: B, event: go}, {from: B, to: A, event: back}]}",
     protocol "pingpong" ["A"; "B"] [transition "A" "B" "go"; transition "B" "A" "back"]);
    ("{protocol_name: oneway, states: [A, B], transitions: [{from: A, to: B, event: go}]}",
     protocol "oneway" ["A"; "B"] [transition "A" "B" "go"]);
    ("{protocol_name: loop, states: [A], transitions: [{from: A, to: A, event: go}, {to: A, event: go}]}",
     protocol "loop" ["A"]
       [transition "A" "A" "go"; PDict [(AStr "to", PStr "A"); (AStr "event", PStr "go")]]);
    ("{protocol_name: nofrom, states: [A], transitions: [{to: A, event: go}, {from: A, to: A, event: go}]}",
     protocol "nofrom" ["A"]
       [PDict [(AStr "to", PStr "A"); (AStr "event", PStr "go")]; transition "A" "A" "go"]);
    ("{protocol_name: silent, states: [A, B], transitions: [{from: A, to: B, event: go}, {from: B, to: A, event: back}, {from: A, to: A}]}",
     protocol "silent" ["A"; "B"]
       [transition "A" "B" "go"; transition "B" "A" "back";
        PDict [(AStr "from", PStr "A"); (AStr "to", PStr "A")]]);
    ("{m1: {Initial_state: [A]}, m2: {Initial_state: [A, B]}}",
     PDict [machine "m1" ["A"]; machine "m2" ["A"; "B"]]);
    ("{m1: {Initial_state: [A]}}",
     PDict [machine "m1" ["A"]]);
    ("{m1: {}, m2: {}}",
     PDict [(AStr "m1", PDict []); (AStr "m2", PDict [])]);
    ("{m1: {Initial_state: [A]}, m2: {Initial_state: []}, m3: {}}",
     PDict [machine "m1" ["A"]; machine "m2" []; (AStr "m3", PDict [])]);
    ("", PNone) ].

(** Files, by path.  ["broken.yaml"] is not well-formed YAML; any other path
    cannot be opened. *)
Definition files : list (string * string) :=
  [ ("pingpong.yaml", "{protocol_name: pingpong, states: [A, B], transitions: [{from: A, to: B, event: go}, {from: B, to: A, event: back}]}");
    ("oneway.yaml", "{protocol_name: oneway, states: [A, B], transitions: [{from: A, to: B, event: go}]}");
    ("loop.yaml", "{protocol_name: loop, states: [A], transitions: [{from: A, to: A, event: go}, {to: A, event: go}]}");
    ("nofrom.yaml", "{protocol_name: nofrom, states: [A], transitions: [{to: A, event: go}, {from: A, to: A, event: go}]}");
    ("silent.yaml", "{protocol_name: silent, states: [A, B], transitions: [{from: A, to: B, event: go}, {from: B, to: A, event: back}, {from: A, to: A}]}");
    ("machines.yml", "{m1: {Initial_state: [A]}, m2: {Initial_state: [A, B]}}");
    ("single.yml", "{m1: {Initial_state: [A]}}");
    ("bare.yml", "{m1: {}, m2: {}}");
    ("partial.yml", "{m1: {Initial_state: [A]}, m2: {Initial_state: []}, m3: {}}");
    ("empty.yml", "");
    ("broken.yaml", "{protocol_name: [") ].

Fixpoint assoc {A} (key : string) (l : list (string * A)) : option A :=
  match l with
  | [] => None
  | (k, v) :: rest => if String.eqb k key then Some v else assoc key rest
  end.

Definition fs (path : string) : option string := assoc path files.
Definition safe_load (contents : string) : option pyval := assoc contents documents.

End Sample.

(* ===================================================================== *)
(** ** Well-formed documents *)
(* ===================================================================== *)

(** What the validators accept and what the projectors print, said of the
    documents themselves. *)
Module Wellformed.
Import Py Rich Eff Main ProtocolSpec Shape.

(** A transition between declared states with a non-empty string event. *)
Definition well_formed_transition (states : list atom) (t : pyval) : Prop :=
  exists from to event,
    field "from" t = Some (PAtom from) /\ set_mem from states = true
    /\ field "to" t = Some (PAtom to) /\ set_mem to states = true
    /\ field "event" t = Some (PStr event) /\ event <> "".

(** A protocol mapping with its three keys, a non-empty list of pairwise
    different scalar states, each left by a transition, and a non-empty list
    of well-formed transitions. *)
Definition well_formed_protocol (d : list (atom * pyval)) : Prop :=
  has_key "protocol_name" d = true
  /\ exists states transitions,
       lookup (AStr "states") d = Some (PList (map PAtom states))
       /\ states <> []
       /\ has_duplicate (map PAtom states) = false
       /\ lookup (AStr "transitions") d = Some (PList transitions)
       /\ transitions <> []
       /\ (forall s, In s states ->
             exists t, In t transitions /\ leaves (PAtom s) t = true)
       /\ Forall (well_formed_transition states) transitions.

(** A transition of the expected types: a mapping whose [from] is a scalar
    and whose [to], when present, is a scalar. *)
Definition typed_transition (t : pyval) : Prop :=
  (exists from, field "from" t = Some (PAtom from))
  /\ (forall to, field "to" t = Some to -> exists a, to = PAtom a).

(** A protocol mapping of the expected types: when [states] is a list its
    entries are strings, when [transitions] is a list its entries are typed
    transitions. *)
Definition typed_protocol (d : list (atom * pyval)) : Prop :=
  (forall l, lookup (AStr "states") d = Some (PList l) ->
             Forall (fun v => is_str v = true) l)
  /\ (forall l, lookup (AStr "transitions") d = Some (PList l) ->
                Forall typed_transition l).

(** The projector's test [transition.get("from") == state], for a mapping. *)
Definition goes_from (state t : pyval) : bool :=
  match t with
  | PDict td =>
      py_eq (match lookup (AStr "from") td with Some f => f | None => PNone end) state
  | _ => false
  end.

Definition field_or (name : string) (default : pyval) (t : pyval) : pyval :=
  match field name t with Some v => v | None => default end.

(** The two entries a matching transition adds to a row. *)
Definition arrow (t : pyval) : text :=
  transition_text (field_or "from" PNone t) (field_or "to" PNone t).

Definition event_label (t : pyval) : pyval := field_or "event" (PStr "N/A") t.

(** The text of a cell that holds a string or null. *)
Definition label (v : pyval) : string :=
  match v with PStr s => s | _ => "" end.

(** The row of a state, from the transitions that leave it, in their order. *)
Definition protocol_row (ts : list pyval) (state : pyval) : list text :=
  let matching := filter (goes_from state) ts in
  if nonempty matching then
    [[Lit (label state)];
     [Lit (String.concat " | " (map (fun t => label (event_label t)) matching))];
     join_text " | " (map arrow matching)]
  else
    [[Lit (label state)]; [Lit "No transitions"]; [Lit "No event"]].

(** A transition whose [event], when present, is a string. *)
Definition string_event (t : pyval) : bool := is_str (event_label t).

Definition is_mapping (v : pyval) : bool :=
  match v with PDict _ => true | _ => false end.

(** The single-character strings of a string, as iterating over it gives. *)
Definition spelled (s : string) : list string :=
  map (fun c => String c EmptyString) (list_ascii_of_string s).

(** A machine entry the settings projector can print: its name is the string
    [name] and its [Initial_state] is the list of the strings [labels]. *)
Definition printable_machine (entry : atom * pyval) (name : string)
  (labels : list string) : Prop :=
  fst entry = AStr name
  /\ initial_state_of (snd entry) = Some (PList (map (fun s => PStr s) labels)).


Definition settings_heading : text := [Lit "Imported Settings:"].

Definition settings_columns : list string := ["Machine name"; "Inital state"].

End Wellformed.

(* ===================================================================== *)
(** ** One-document file systems *)
(* ===================================================================== *)

(** A file system in which every path can be opened, with a loader that
    parses every text to the same document; and some documents to put in
    it. *)
Module Fixture.
Import Py.

Definition fs (path : string) : option string := Some "".

Definition holding (doc : pyval) (contents : string) : option pyval := Some doc.

Definition arrow (from to : atom) (event : pyval) : pyval :=
  PDict [(AStr "from", PAtom from); (AStr "to", PAtom to); (AStr "event", event)].

Definition protocol (states : list pyval) (transitions : list pyval)
  : list (atom * pyval) :=
  [(AStr "protocol_name", PStr "demo");
   (AStr "states", PList states);
   (AStr "transitions", PList transitions)].

(** [states: [1, true]]: two scalars that Python holds equal. *)
Definition one_and_true : list (atom * pyval) :=
  protocol [PAtom (AInt 1); PAtom (ABool true)] [PStr "anything"].

(** [states: [[A]]]: a state that is a sequence. *)
Definition nested_state : list (atom * pyval) :=
  protocol [PList [PStr "A"]] [PStr "anything"].

(** Three states, of which only [A] is left by a transition. *)
Definition two_dead : list (atom * pyval) :=
  protocol [PStr "A"; PStr "B"; PStr "C"] [arrow (AStr "A") (AStr "B") (PStr "go")].





(** A machine whose [Initial_state] is a plain string. *)
Definition idle : pyval := PDict [(AStr "Initial_state", PStr "idle")].

(** Two machines, the second with an integer label. *)
Definition numbered : list (atom * pyval) :=
  [(AStr "m1", PDict [(AStr "Initial_state", PList [PStr "A"])]);
   (AStr "m2", PDict [(AStr "Initial_state", PList [PAtom (AInt 1)])])].

(** A loader that parses every text to the same document, in the wider
    environment of [Strict]. *)
Definition loading (doc : pyval) (contents : string) : result pyval := Ok doc.

(** A state named as a closing tag of Rich's markup, left by no transition. *)
Definition closing_tag_state : list (atom * pyval) :=
  protocol [PStr "A"; PStr "[/x]"] [arrow (AStr "A") (AStr "A") (PStr "go")].

(** A transition without [event]. *)
Definition silent (from to : string) : pyval :=
  PDict [(AStr "from", PStr from); (AStr "to", PStr to)].

(** A transition without [event] between two that have one. *)
Definition one_silent : list (atom * pyval) :=
  protocol [PStr "A"; PStr "B"]
           [arrow (AStr "A") (AStr "B") (PStr "go"); silent "A" "A";
            arrow (AStr "A") (AStr "B") (PStr "again")].

(** A transition without [event] beside one whose event is an integer. *)
Definition silent_and_numbered : list (atom * pyval) :=
  protocol [PStr "A"]
           [silent "A" "A"; arrow (AStr "A") (AStr "A") (PAtom (AInt 5))].


(** Machines: the second has no [Initial_state], the third is null. *)
Definition unready : list (atom * pyval) :=
  [(AStr "m1", PDict [(AStr "Initial_state", PList [PStr "A"])]);
   (AStr "m2", PDict []);
   (AStr "m3", PNone)].

End Fixture.

(* ===================================================================== *)
(** ** Rich markup: closing tags *)
(* ===================================================================== *)

(** [console.print] reads its text as markup.  A tag is a bracket, a
    character among [a-z#/@], and what follows up to the next closing
    bracket, with no opening bracket in between; an odd number of backslashes
    before it escapes it.  A closing tag, [[/name]] or [[/]], pops an open
    tag; with no open tag to pop, rendering raises [MarkupError].  This
    module finds that error, with the message Rich builds for it.  It
    follows the stack of open tags only while a closing tag names the tag on
    top by the same characters; anywhere else (style names that differ only
    in spelling, tags that start with [@], text that is not ASCII, where
    positions and white space are those of code points) it gives no
    answer. *)
Module Markup.
Import Py Rich Eff.

(** The characters a text stands for, where they are known: an interpolated
    scalar, or the message of a [MarkupError]. *)
Fixpoint characters (t : text) : option string :=
  match t with
  | [] => Some ""
  | f :: rest =>
      match f, characters rest with
      | Lit s, Some r => Some (String.append s r)
      | Val (PAtom a), Some r => Some (String.append (str_atom a) r)
      | ErrText (MarkupError message), Some r => Some (String.append message r)
      | _, _ => None
      end
  end.

Definition tag_start (c : ascii) : bool :=
  let n := nat_of_ascii c in
  (Nat.leb 97 n && Nat.leb n 122)
  || Ascii.eqb c "#" || Ascii.eqb c "/" || Ascii.eqb c "@".

(** What stands before the first closing bracket, unless an opening bracket
    comes first. *)
Fixpoint up_to_bracket (s : string) : option string :=
  match s with
  | EmptyString => None
  | String c rest =>
      if Ascii.eqb c "]" then Some EmptyString
      else if Ascii.eqb c "[" then None
      else option_map (String c) (up_to_bracket rest)
  end.

(** The text of the tag whose opening bracket stands just before [rest]. *)
Definition tag_at (rest : string) : option string :=
  match rest with
  | String c _ => if tag_start c then up_to_bracket rest else None
  | EmptyString => None
  end.

(** [tag_text.partition("=")[0]] *)
Fixpoint before_equals (s : string) : string :=
  match s with
  | EmptyString => EmptyString
  | String c rest =>
      if Ascii.eqb c "=" then EmptyString else String c (before_equals rest)
  end.

Definition is_space (c : ascii) : bool :=
  let n := nat_of_ascii c in
  (Nat.leb 9 n && Nat.leb n 13) || (Nat.leb 28 n && Nat.leb n 32).

Fixpoint lstrip (s : string) : string :=
  match s with
  | String c rest => if is_space c then lstrip rest else s
  | EmptyString => EmptyString
  end.

Definition reversed (s : string) : string :=
  string_of_list_ascii (rev (list_ascii_of_string s)).

(** [s.strip()] *)
Definition strip (s : string) : string := reversed (lstrip (reversed (lstrip s))).

Definition decimal (n : nat) : string := NilZero.string_of_uint (Nat.to_uint n).

Definition no_open_tag (tag_text : string) (position : nat) : string :=
  "closing tag '[" ++ tag_text ++ "]' at position " ++ decimal position
  ++ " doesn't match any open tag".

Definition nothing_to_close (position : nat) : string :=
  "closing tag '[/]' at position " ++ decimal position ++ " has nothing to close".

Inductive step : Type :=
| Fails (message : string)
| Goes (stack : list string)
| Unknown.

(** One tag, with the names of the open tags, innermost first. *)
Definition on_tag (tag_text : string) (position : nat) (stack : list string) : step :=
  let name := before_equals tag_text in
  match name with
  | String "/" closed =>
      let style_name := strip closed in
      match style_name, stack with
      | EmptyString, [] => Fails (nothing_to_close position)
      | EmptyString, _ :: below => Goes below
      | _, [] => Fails (no_open_tag tag_text position)
      | _, top :: below => if String.eqb top style_name then Goes below else Unknown
      end
  | String "@" _ => Unknown
  | _ => Goes (name :: stack)
  end.

(** The scan of the tags, left to right: [position] is the index of the
    current character, [skip] the number of characters left of the tag being
    passed, [slashes] the number of backslashes just before. *)
Fixpoint scan (s : string) (position skip slashes : nat) (stack : list string)
  : option string :=
  match s with
  | EmptyString => None
  | String c rest =>
      match skip with
      | S k => scan rest (S position) k 0 stack
      | O =>
          if Ascii.eqb c "\" then scan rest (S position) 0 (S slashes) stack
          else if Ascii.eqb c "[" then
            match tag_at rest with
            | None => scan rest (S position) 0 0 stack
            | Some tag_text =>
                let after := S (String.length tag_text) in
                if Nat.odd slashes then scan rest (S position) after 0 stack
                else
                  match on_tag tag_text position stack with
                  | Fails message => Some message
                  | Goes stack' => scan rest (S position) after 0 stack'
                  | Unknown => None
                  end
            end
          else scan rest (S position) 0 0 stack
      end
  end.

Definition is_ascii (s : string) : bool :=
  forallb (fun c => Nat.ltb (nat_of_ascii c) 128) (list_ascii_of_string s).

(** The message of the [MarkupError] that rendering [markup] raises at a
    closing tag, where the scan finds one. *)
Definition closing_tag_error (markup : string) : option string :=
  if is_ascii markup then scan markup 0 0 0 [] else None.

(** A console, by what [console.print] raises for a line or a table, if
    anything.  Rich's console raises at least the errors the scan finds. *)
Definition raises_on_closing_tags (console : event -> option lib_error) : Prop :=
  forall msg markup message,
    characters msg = Some markup ->
    closing_tag_error markup = Some message ->
    console (Print msg) = Some (MarkupError message).

(** A console that raises exactly those errors on the lines it is handed,
    and accepts every table. *)
Definition closing_tag_console (ev : event) : option lib_error :=
  match ev with
  | Print msg =>
      match characters msg with
      | Some markup => option_map MarkupError (closing_tag_error markup)
      | None => None
      end
  | _ => None
  end.

(** The console that never raises. *)
Definition quiet (ev : event) : option lib_error := None.

End Markup.

(* ===================================================================== *)
(** ** The program, with a console and a loader that can raise *)
(* ===================================================================== *)

(** The same functions as in [Main], line by line, in a wider environment:
    [console.print] raises what the console raises for the line or the table
    and prints otherwise, and [yaml.safe_load] raises any exception (a
    [YAMLError], or the [ValueError] of a scalar it cannot build, such as a
    date with month 13).  What does not print or load is shared with
    [Main]. *)
Module Strict.
Import Py Rich Eff Main.
Local Open Scope eff_scope.

Section Program.

Variable fs : string -> option string.
Variable safe_load : string -> result pyval.
Variable console : event -> option lib_error.

Definition read_document (file_path : string) : result pyval :=
  match fs file_path with
  | None => Raise (LibError (OSError file_path))
  | Some contents => safe_load contents
  end.

Definition load (file_path : string) : M pyval :=
  emit (Open file_path) ;;
  lift (read_document file_path).

Definition show (ev : event) : M unit :=
  match console ev with
  | Some error => lift (Raise (LibError error))
  | None => emit ev
  end.

Definition console_print (msg : text) : M unit := show (Print msg).
Definition console_print_table (t : table) : M unit := show (PrintTable t).

(** *** protocol_read *)

Definition protocol_read (file_path : string) : M unit :=
  content <- load file_path ;;
  protocol_name <- lift (py_get content "protocol_name" (PList [])) ;;
  console_print [Lit "Protocol: "; Val protocol_name] ;;
  table_protocol <- lift (protocol_table content) ;;
  console_print_table table_protocol.

(** *** validate_protocol_file *)

Fixpoint check_required_keys (keys : list string) (content : pyval)
  : M (option bool) :=
  match keys with
  | [] => ret None
  | key :: rest =>
      present <- lift (py_in key content) ;;
      if negb present then
        console_print (error_line [Lit "Missing key: "; Val (PStr key)]) ;;
        ret (Some false)
      else check_required_keys rest content
  end.

Fixpoint check_transitions (transitions : list pyval) (state_set : list atom)
  : M (option bool) :=
  match transitions with
  | [] => ret None
  | transition :: rest =>
      complete <- lift (all_in ["from"; "to"; "event"] transition) ;;
      if negb complete then
        console_print
          (error_line [Lit "Each transition must contain 'from', 'to', and 'event'"]) ;;
        ret (Some false)
      else
        outside <- lift (outside_states transition state_set) ;;
        if outside then
          console_print
            (error_line [Lit "Invalid state in transition: "; Val transition]) ;;
          ret (Some false)
        else
          event <- lift (py_getitem transition "event") ;;
          if negb (is_str event) || negb (truthy event) then
            console_print
              (error_line [Lit "Event must be a non-empty string in transition: ";
                           Val transition]) ;;
            ret (Some false)
          else check_transitions rest state_set
  end.

Definition protocol_checks (content : pyval) : M bool :=
  missing <- check_required_keys required_keys content ;;
  match missing with
  | Some verdict => ret verdict
  | None =>
      states <- lift (py_getitem content "states") ;;
      if negb (is_list states) || Nat.ltb (List.length (list_items states)) 1 then
        console_print (error_line [Lit "States should be a non-empty list"]) ;;
        ret false
      else
        transitions <- lift (py_getitem content "transitions") ;;
        if negb (is_list transitions)
           || Nat.ltb (List.length (list_items transitions)) 1 then
          console_print (error_line [Lit "Transitions should be a non-empty list"]) ;;
          ret false
        else
          distinct <- lift (py_set (list_items states)) ;;
          if negb (Nat.eqb (List.length (list_items states)) (List.length distinct)) then
            console_print (error_line [Lit "Duplicate states found"]) ;;
            ret false
          else
            state_set <- lift (py_set (list_items states)) ;;
            dead <- lift (state_with_no_transitions (list_items states)
                            (list_items transitions)) ;;
            if nonempty dead then
              names <- lift (join_list ", " dead) ;;
              console_print
                (error_line [Lit "States with no transitions: "; Val (PStr names)]) ;;
              ret false
            else
              bad <- check_transitions (list_items transitions) state_set ;;
              match bad with
              | Some verdict => ret verdict
              | None => ret true
              end
  end.

(** The body of the [try] statement of [validate_protocol_file]. *)
Definition protocol_body (file_path : string) : M bool :=
  content <- load file_path ;;
  protocol_checks content.

(** The only clause is [except Exception]; what its own [console.print]
    raises leaves the function. *)
Definition validate_protocol_file (file_path : string) : M bool :=
  try_except
    (protocol_body file_path)
    (fun e => Some (console_print (reading_error e) ;; ret false)).

(** *** settings_read *)

Definition settings_read (file_path : string) : M unit :=
  content <- load file_path ;;
  console_print [Lit "Imported Settings:"] ;;
  items <- lift (py_items content) ;;
  table_settings <- lift (settings_rows items
                            (new_table ["Machine name"; "Inital state"])) ;;
  console_print_table table_settings.

(** *** validate_settings_file *)

(** The body of the [try] statement of [validate_settings_file]. *)
Definition settings_body (file_path : string) : M verdict :=
  content <- load file_path ;;
  lift (settings_checks content).

(** The only clause is [except ValueError]. *)
Definition validate_settings_file (file_path : string) : M verdict :=
  try_except
    (settings_body file_path)
    (fun e =>
       match e with
       | ValueError _ => Some (console_print (settings_error e) ;; ret Failed)
       | LibError _ => None
       end).

(** *** main *)

(** The body of the [try] statement of [main]. *)
Definition main_body (protocol settings : string) : M unit :=
  lift (precheck protocol settings) ;;
  valid <- validate_protocol_file protocol ;;
  both <- (if valid then
             v <- validate_settings_file settings ;;
             ret (verdict_truthy v)
           else ret false) ;;
  if both then
    protocol_read protocol ;;
    settings_read settings
  else ret tt.

(** Both clauses, [except ValueError] and [except Exception], print the same
    line; what that [console.print] raises leaves [main]. *)
Definition main (protocol settings : string) : M unit :=
  try_except
    (main_body protocol settings)
    (fun e =>
       match e with
       | ValueError _ => Some (console_print (driver_error e))
       | LibError _ => Some (console_print (driver_error e))
       end).

End Program.

(** The loader of [Main], which fails with [YAMLError] only. *)
Definition yaml_only (safe_load : string -> option pyval) (contents : string)
  : result pyval :=
  match safe_load contents with
  | Some content => Ok content
  | None => Raise (LibError YAMLError)
  end.

End Strict.

(* ===================================================================== *)
(** ** Properties *)
(* ===================================================================== *)

Import Py Rich Eff Main Reading ProtocolSpec Shape.

(** *** Strings *)

Lemma substring_whole (s : string) : String.substring 0 (String.length s) s = s.
Proof. induction s as [|c s IH]; simpl; [reflexivity | now rewrite IH]. Qed.

Lemma substring_skip (pre s : string) (m : nat) :
  String.substring (String.length pre) m (pre ++ s) = String.substring 0 m s.
Proof. induction pre as [|c pre IH]; simpl; [reflexivity | exact IH]. Qed.

Lemma length_append (a b : string) :
  String.length (a ++ b) = String.length a + String.length b.
Proof. induction a as [|c a IH]; simpl; [reflexivity | now rewrite IH]. Qed.

Lemma substring_split (s : string) (k : nat) :
  k <= String.length s ->
  s = (String.substring 0 k s ++ String.substring k (String.length s - k) s)%string.
Proof.
  revert k. induction s as [|c s IH]; intros k Hk; simpl in *.
  - destruct k; reflexivity.
  - destruct k as [|k]; simpl.
    + now rewrite substring_whole.
    + f_equal. apply IH. lia.
Qed.

Lemma endswith_spec (s suffix : string) :
  endswith s suffix = true <-> exists stem, s = (stem ++ suffix)%string.
Proof.
  unfold endswith. rewrite andb_true_iff, Nat.leb_le, String.eqb_eq. split.
  - intros [Hle Hsub]. exists (String.substring 0 (String.length s - String.length suffix) s).
    pose proof (substring_split s (String.length s - String.length suffix)) as Hs.
    replace (String.length s - (String.length s - String.length suffix))
      with (String.length suffix) in Hs by lia.
    rewrite Hsub in Hs. apply Hs. lia.
  - intros [stem ->]. rewrite length_append. split; [lia|].
    replace (String.length stem + String.length suffix - String.length suffix)
      with (String.length stem) by lia.
    rewrite substring_skip. apply substring_whole.
Qed.

(** *** Traces *)

Lemma opened_app (a b : trace) : opened (a ++ b) = opened a ++ opened b.
Proof.
  induction a as [|ev a IH]; simpl; [reflexivity|].
  destruct ev; simpl; rewrite IH; reflexivity.
Qed.

Lemma tables_app (a b : trace) : tables (a ++ b) = tables a ++ tables b.
Proof.
  induction a as [|ev a IH]; simpl; [reflexivity|].
  destruct ev; simpl; rewrite IH; reflexivity.
Qed.

Lemma prints_only_ret {A} (a : A) : prints_only (ret a).
Proof. split; reflexivity. Qed.

Lemma prints_only_lift {A} (r : result A) : prints_only (lift r).
Proof. split; reflexivity. Qed.

Lemma prints_only_print (msg : text) : prints_only (console_print msg).
Proof. split; reflexivity. Qed.

Lemma prints_only_bind {A B} (m : M A) (k : A -> M B) :
  prints_only m -> (forall a, prints_only (k a)) -> prints_only (bind m k).
Proof.
  unfold prints_only, output. destruct m as [[a|e] t]; simpl; intros [Ho Ht] Hk.
  - specialize (Hk a). destruct (k a) as [r t']; simpl in *.
    rewrite opened_app, tables_app, Ho, Ht. exact Hk.
  - split; assumption.
Qed.

Ltac prints_only_step :=
  first
    [ apply prints_only_ret
    | apply prints_only_lift
    | apply prints_only_print
    | apply prints_only_bind; [| intro]
    | match goal with
      | |- prints_only (if ?b then _ else _) => destruct b
      | |- prints_only (match ?x with _ => _ end) => destruct x
      end ].

Lemma check_required_keys_prints keys content :
  prints_only (check_required_keys keys content).
Proof.
  induction keys as [|k keys IH]; cbn [check_required_keys];
    repeat first [exact IH | prints_only_step].
Qed.

Lemma check_transitions_prints ts state_set :
  prints_only (check_transitions ts state_set).
Proof.
  induction ts as [|t ts IH]; cbn [check_transitions];
    repeat first [exact IH | prints_only_step].
Qed.

Lemma protocol_checks_prints content : prints_only (protocol_checks content).
Proof.
  unfold protocol_checks.
  repeat first [ apply check_required_keys_prints
               | apply check_transitions_prints
               | prints_only_step ].
Qed.


(** *** Steps of a computation *)

Lemma bind_pure {A B} (a : A) (k : A -> M B) : bind (Ok a, []) k = k a.
Proof. unfold bind. destruct (k a). reflexivity. Qed.

Lemma bind_raised {A B} (e : exn) (k : A -> M B) :
  bind (Raise e, []) k = (Raise e, []).
Proof. reflexivity. Qed.

Ltac run_step := unfold lift; rewrite ?bind_pure, ?bind_raised.

Lemma bind_print_ret {A} msg (a : A) :
  bind (console_print msg) (fun _ => ret a) = (Ok a, [Print msg]).
Proof. reflexivity. Qed.

Lemma check_required_keys_loop keys content :
  loop_trace (check_required_keys keys content).
Proof.
  induction keys as [|key keys IH]; cbn [check_required_keys]; [reflexivity|].
  destruct (py_in key content) as [[|]|e]; run_step; cbn [negb].
  - exact IH.
  - rewrite bind_print_ret. cbn. eauto.
  - reflexivity.
Qed.

Lemma check_transitions_loop ts state_set :
  loop_trace (check_transitions ts state_set).
Proof.
  induction ts as [|x ts IH]; cbn [check_transitions]; [reflexivity|].
  destruct (all_in _ x) as [[|]|e]; run_step; cbn [negb];
    [| rewrite bind_print_ret; cbn; eauto | reflexivity].
  destruct (outside_states x state_set) as [[|]|e]; run_step;
    [rewrite bind_print_ret; cbn; eauto | | reflexivity].
  destruct (py_getitem x "event") as [event|e]; run_step; [|reflexivity].
  destruct (negb (is_str event) || negb (truthy event));
    [rewrite bind_print_ret; cbn; eauto | exact IH].
Qed.

(** Whatever the document, the checks print one line when they fail and
    nothing when they succeed or raise. *)
Lemma protocol_checks_verdict content : verdict_trace (protocol_checks content).
Proof.
  unfold protocol_checks.
  pose proof (check_required_keys_loop required_keys content) as Hkeys.
  destruct (check_required_keys required_keys content) as [[[b|]|e] t]; cbn in Hkeys.
  - destruct Hkeys as (-> & msg & ->). cbn. eauto.
  - subst t. run_step.
    destruct (py_getitem content "states") as [states|e]; run_step; [|reflexivity].
    destruct (negb (is_list states) || _); [rewrite bind_print_ret; cbn; eauto|].
    destruct (py_getitem content "transitions") as [transitions|e]; run_step;
      [|reflexivity].
    destruct (negb (is_list transitions) || _); [rewrite bind_print_ret; cbn; eauto|].
    destruct (py_set (list_items states)) as [distinct|e]; run_step; [|reflexivity].
    destruct (negb _); [rewrite bind_print_ret; cbn; eauto|].
    destruct (state_with_no_transitions _ _) as [found|e]; run_step; [|reflexivity].
    destruct (nonempty found).
    + destruct (join_list ", " found) as [names|e]; run_step; [|reflexivity].
      rewrite bind_print_ret. cbn. eauto.
    + pose proof (check_transitions_loop (list_items transitions) distinct) as Hts.
      destruct (check_transitions _ _) as [[[b|]|e] t]; cbn in Hts.
      * destruct Hts as (-> & msg & ->). cbn. eauto.
      * subst t. reflexivity.
      * subst t. reflexivity.
  - subst t. reflexivity.
Qed.

(** *** Each function by the results of its parts *)

Section Runs.

Variable fs : string -> option string.
Variable safe_load : string -> option pyval.

Local Abbreviation read_document := (read_document fs safe_load).
Local Abbreviation validate_protocol_file := (validate_protocol_file fs safe_load).
Local Abbreviation validate_settings_file := (validate_settings_file fs safe_load).
Local Abbreviation protocol_read := (protocol_read fs safe_load).
Local Abbreviation settings_read := (settings_read fs safe_load).
Local Abbreviation main := (main fs safe_load).

Lemma read_document_error path e :
  read_document path = Raise e ->
  e = LibError (OSError path) \/ e = LibError YAMLError.
Proof.
  unfold Main.read_document. destruct (fs path) as [contents|].
  - destruct (safe_load contents); [discriminate|]. intros [= <-]. now right.
  - intros [= <-]. now left.
Qed.

Lemma validate_protocol_file_run path :
  validate_protocol_file path =
  match read_document path with
  | Raise e => (Ok false, [Open path; Print (reading_error e)])
  | Ok content =>
      match protocol_checks content with
      | (Ok b, t) => (Ok b, Open path :: t)
      | (Raise e, t) => (Ok false, Open path :: t ++ [Print (reading_error e)])
      end
  end.
Proof.
  unfold Main.validate_protocol_file, protocol_body, load, try_except. cbn.
  destruct read_document as [content|e]; cbn; [|reflexivity].
  destruct (protocol_checks content) as [[b|e] t]; cbn.
  - reflexivity.
  - rewrite ?app_nil_r. reflexivity.
Qed.

Lemma validate_settings_file_run path :
  validate_settings_file path =
  match read_document path with
  | Raise e => (Raise e, [Open path])
  | Ok content =>
      match settings_checks content with
      | Ok v => (Ok v, [Open path])
      | Raise (ValueError msg) =>
          (Ok Failed, [Open path; Print (settings_error (ValueError msg))])
      | Raise (LibError le) => (Raise (LibError le), [Open path])
      end
  end.
Proof.
  unfold Main.validate_settings_file, load, try_except. cbn.
  destruct read_document as [content|e] eqn:E; cbn.
  - destruct (settings_checks content) as [v|[msg|le]]; cbn; reflexivity.
  - destruct (read_document_error _ _ E) as [-> | ->]; reflexivity.
Qed.

Lemma protocol_read_run path :
  protocol_read path =
  match read_document path with
  | Raise e => (Raise e, [Open path])
  | Ok content =>
      match py_get content "protocol_name" (PList []) with
      | Raise e => (Raise e, [Open path])
      | Ok name =>
          match protocol_table content with
          | Raise e => (Raise e, [Open path; Print [Lit "Protocol: "; Val name]])
          | Ok t => (Ok tt, [Open path; Print [Lit "Protocol: "; Val name]; PrintTable t])
          end
      end
  end.
Proof.
  unfold Main.protocol_read, load. cbn.
  destruct read_document as [content|e]; cbn; [|reflexivity].
  destruct (py_get content "protocol_name" (PList [])) as [name|e]; cbn; [|reflexivity].
  destruct (protocol_table content) as [t|e]; cbn; reflexivity.
Qed.

Lemma settings_read_run path :
  settings_read path =
  match read_document path with
  | Raise e => (Raise e, [Open path])
  | Ok content =>
      match py_items content with
      | Raise e => (Raise e, [Open path; Print [Lit "Imported Settings:"]])
      | Ok items =>
          match settings_rows items (new_table ["Machine name"; "Inital state"]) with
          | Raise e => (Raise e, [Open path; Print [Lit "Imported Settings:"]])
          | Ok t => (Ok tt, [Open path; Print [Lit "Imported Settings:"]; PrintTable t])
          end
      end
  end.
Proof.
  unfold Main.settings_read, load. cbn.
  destruct read_document as [content|e]; cbn; [|reflexivity].
  destruct (py_items content) as [items|e]; cbn; [|reflexivity].
  destruct (settings_rows items _) as [t|e]; cbn; reflexivity.
Qed.

(** The protocol validator always returns; it opens its file once and
    prints lines only. *)
Lemma validate_protocol_file_shape path :
  exists b t, validate_protocol_file path = (Ok b, Open path :: t)
              /\ opened t = [] /\ tables t = [].
Proof.
  rewrite validate_protocol_file_run.
  destruct read_document as [content|e].
  - destruct (protocol_checks_prints content) as [Ho Ht]. unfold output in *.
    destruct (protocol_checks content) as [[b|e] t]; simpl in *.
    + exists b, t. auto.
    + exists false, (t ++ [Print (reading_error e)]).
      rewrite opened_app, tables_app, Ho, Ht. auto.
  - exists false, [Print (reading_error e)]. auto.
Qed.

Lemma validate_settings_file_shape path :
  exists r t, validate_settings_file path = (r, Open path :: t)
              /\ opened t = [] /\ tables t = [].
Proof.
  rewrite validate_settings_file_run.
  destruct read_document as [content|e]; [|eauto].
  destruct (settings_checks content) as [v|[msg|le]]; eauto.
Qed.



(** [main], by the result of the precheck and of each stage. *)
Lemma main_run p s :
  main p s =
  match precheck p s with
  | Raise e => (Ok tt, [Print (driver_error e)])
  | Ok _ =>
      match validate_protocol_file p with
      | (Raise e, tp) => (Ok tt, tp ++ [Print (driver_error e)])
      | (Ok false, tp) => (Ok tt, tp)
      | (Ok true, tp) =>
          match validate_settings_file s with
          | (Raise e, ts) => (Ok tt, tp ++ ts ++ [Print (driver_error e)])
          | (Ok Failed, ts) => (Ok tt, tp ++ ts)
          | (Ok (Passed _), ts) =>
              match protocol_read p with
              | (Raise e, tr) => (Ok tt, tp ++ ts ++ tr ++ [Print (driver_error e)])
              | (Ok _, tr) =>
                  match settings_read s with
                  | (Raise e, tw) =>
                      (Ok tt, tp ++ ts ++ tr ++ tw ++ [Print (driver_error e)])
                  | (Ok _, tw) => (Ok tt, tp ++ ts ++ tr ++ tw)
                  end
              end
          end
      end
  end.
Proof.
  unfold Main.main, main_body.
  generalize (precheck p s) (validate_protocol_file p) (validate_settings_file s)
             (protocol_read p) (settings_read s).
  intros pc vp vs pr sr. unfold try_except, bind, lift.
  destruct pc as [[]|[m|le]]; cbn; try reflexivity.
  destruct vp as [[[|]|[m|le]] tp]; cbn; rewrite ?app_nil_r; try reflexivity.
  destruct vs as [[[note|]|[m|le]] ts]; cbn; rewrite ?app_nil_r, <- ?app_assoc;
    try reflexivity.
  destruct pr as [[[]|[m|le]] tr]; cbn; rewrite ?app_nil_r, <- ?app_assoc;
    try reflexivity.
  destruct sr as [[[]|[m|le]] tw]; cbn; rewrite ?app_nil_r, <- ?app_assoc;
    reflexivity.
Qed.

Lemma yaml_suffix_spec path : yaml_suffix path = true <-> ends_in_yaml path.
Proof.
  unfold yaml_suffix, ends_in_yaml. rewrite orb_true_iff, !endswith_spec.
  split.
  - intros [[stem H]|[stem H]]; exists stem; auto.
  - intros [stem [H|H]]; [left|right]; exists stem; exact H.
Qed.

Lemma precheck_ok p s :
  precheck p s = Ok tt <-> p <> s /\ ends_in_yaml p /\ ends_in_yaml s.
Proof.
  unfold precheck. rewrite <- !yaml_suffix_spec.
  destruct (String.eqb_spec p s) as [->|Hne]; cbn.
  - split; [discriminate | intros [H _]; now elim H].
  - destruct (yaml_suffix p); cbn.
    + destruct (yaml_suffix s); cbn; split; auto; try discriminate.
      intros (_ & _ & H); discriminate.
    + split; [discriminate | intros (_ & H & _); discriminate].
Qed.

End Runs.

(** *** Scalars and sets *)

Lemma atom_eqb_code x y : atom_eqb x y = true <-> atom_code x = atom_code y.
Proof.
  destruct x as [|[|]|a|a], y as [|[|]|b|b]; cbn -[Z.eqb];
    rewrite ?Z.eqb_eq, ?String.eqb_eq; split; intros H;
    try discriminate; try reflexivity; try congruence;
    try (injection H; intros; subst; reflexivity).
Qed.

Lemma atom_eqb_trans x y z :
  atom_eqb x y = true -> atom_eqb y z = true -> atom_eqb x z = true.
Proof. rewrite !atom_eqb_code. congruence. Qed.

Lemma set_mem_congr a b l :
  atom_eqb a b = true -> set_mem b l = true -> set_mem a l = true.
Proof.
  unfold set_mem. rewrite !existsb_exists. intros Hab (y & Hy & Hby).
  exists y. split; [exact Hy|]. eapply atom_eqb_trans; eassumption.
Qed.

Lemma set_mem_set_of_atoms a l : set_mem a (set_of_atoms l) = set_mem a l.
Proof.
  revert a. induction l as [|x l IH]; intros a; [reflexivity|].
  cbn [set_of_atoms]. destruct (set_mem x (set_of_atoms l)) eqn:Hx.
  - rewrite IH in *. change (set_mem a (x :: l)) with (atom_eqb a x || set_mem a l).
    destruct (atom_eqb a x) eqn:Hax; [|reflexivity].
    cbn. apply set_mem_congr with x; assumption.
  - change (atom_eqb a x || set_mem a (set_of_atoms l) = atom_eqb a x || set_mem a l).
    now rewrite IH.
Qed.

Lemma length_set_of_atoms_le l : List.length (set_of_atoms l) <= List.length l.
Proof.
  induction l as [|x l IH]; cbn [set_of_atoms]; [reflexivity|].
  destruct (set_mem x (set_of_atoms l)); cbn; lia.
Qed.

Lemma existsb_py_eq_atoms a l :
  existsb (py_eq (PAtom a)) (map PAtom l) = set_mem a l.
Proof.
  unfold set_mem. induction l as [|x l IH]; [reflexivity|].
  cbn [map existsb]. rewrite IH. reflexivity.
Qed.

(** Comparing the cardinality of [set(states)] with [len(states)] detects
    exactly the lists with two equal entries. *)
Lemma set_cardinality_duplicates l :
  Nat.eqb (List.length l) (List.length (set_of_atoms l))
  = negb (ProtocolSpec.has_duplicate (map PAtom l)).
Proof.
  induction l as [|x l IH]; [reflexivity|].
  cbn [set_of_atoms map ProtocolSpec.has_duplicate].
  rewrite existsb_py_eq_atoms. pose proof (length_set_of_atoms_le l) as Hle.
  destruct (set_mem x (set_of_atoms l)) eqn:Hx; rewrite set_mem_set_of_atoms in Hx;
    rewrite Hx; cbn [orb negb List.length].
  - apply Nat.eqb_neq. lia.
  - rewrite <- IH. reflexivity.
Qed.

Lemma atoms_of_ok l la : atoms_of l = Ok la -> l = map PAtom la.
Proof.
  revert la. induction l as [|x l IH]; intros la; cbn.
  - intros [= <-]. reflexivity.
  - destruct x as [a| |]; try discriminate.
    destruct (atoms_of l) as [r|e]; cbn; [|discriminate].
    intros [= <-]. cbn. now rewrite (IH r).
Qed.

Lemma atoms_of_map la : atoms_of (map PAtom la) = Ok la.
Proof. induction la as [|a la IH]; cbn; [reflexivity | now rewrite IH]. Qed.

Lemma py_eq_atom_r v a :
  py_eq v (PAtom a) = true -> exists b, v = PAtom b /\ atom_eqb b a = true.
Proof. destruct v as [b| |]; cbn; try discriminate. intros H. now exists b. Qed.

(** *** The checks of the protocol validator, one by one *)


Lemma check_required_keys_run keys d :
  check_required_keys keys (PDict d) =
  match find (fun key => negb (has_key key d)) keys with
  | Some key =>
      (Ok (Some false), [Print (error_line [Lit "Missing key: "; Val (PStr key)])])
  | None => (Ok None, [])
  end.
Proof.
  induction keys as [|k keys IH]; [reflexivity|].
  cbn [check_required_keys find]. unfold has_key at 1. cbn [py_in].
  run_step. destruct (lookup (AStr k) d); cbn [negb]; [exact IH | reflexivity].
Qed.

Lemma any_from_ok state ts b :
  any_from state ts = Ok b -> b = existsb (leaves state) ts.
Proof.
  induction ts as [|t ts IH]; cbn [any_from existsb].
  - intros [= <-]. reflexivity.
  - unfold leaves at 1, field, py_getitem.
    destruct t as [a|l|t]; cbn; try discriminate.
    destruct (lookup (AStr "from") t) as [from|]; cbn; [|discriminate].
    destruct (py_eq from state); cbn; [intros [= <-]; reflexivity | exact IH].
Qed.

Lemma state_with_no_transitions_ok states ts found :
  state_with_no_transitions states ts = Ok found ->
  found = filter (fun state => negb (existsb (leaves state) ts)) states.
Proof.
  revert found. induction states as [|s states IH]; intros found;
    cbn [state_with_no_transitions filter].
  - intros [= <-]. reflexivity.
  - destruct (any_from s ts) as [b|e] eqn:Hb; cbn; [|discriminate].
    apply any_from_ok in Hb. subst b.
    destruct (state_with_no_transitions states ts) as [others|e]; cbn; [|discriminate].
    rewrite (IH others eq_refl). intros [= <-].
    destruct (existsb (leaves s) ts); reflexivity.
Qed.

Lemma all_in_fields t :
  all_in ["from"; "to"; "event"] (PDict t) =
  Ok (match field "from" (PDict t), field "to" (PDict t), field "event" (PDict t) with
      | Some _, Some _, Some _ => true
      | _, _, _ => false
      end).
Proof.
  cbn. destruct (lookup (AStr "from") t); cbn; [|reflexivity].
  destruct (lookup (AStr "to") t); cbn; [|reflexivity].
  destruct (lookup (AStr "event") t); reflexivity.
Qed.

Lemma all_in_false_incomplete d x :
  all_in ["from"; "to"; "event"] x = Ok false -> fault d x = Some IncompleteTransition.
Proof.
  destruct x as [a|l|t]; try reflexivity.
  rewrite all_in_fields. unfold fault.
  destruct (field "from" (PDict t)), (field "to" (PDict t)), (field "event" (PDict t));
    try reflexivity; discriminate.
Qed.

Lemma declared_atom d la a :
  states_of d = map PAtom la ->
  declared d (PAtom a) = set_mem a (set_of_atoms la).
Proof.
  intros H. unfold declared. rewrite H, existsb_py_eq_atoms, set_mem_set_of_atoms.
  reflexivity.
Qed.

Lemma nonempty_string_test v :
  negb (is_str v) || negb (truthy v) = negb (nonempty_string v).
Proof. destruct v as [[| | |s]| |]; cbn; try reflexivity; now destruct (String.eqb s ""). Qed.

Ltac report_line := split; [reflexivity | eexists; split; reflexivity].

(** One turn of the last loop: either the transition has a fault, which is
    printed and ends the loop, or the loop goes on. *)
Lemma check_transitions_step d la x rest r t :
  states_of d = map PAtom la ->
  check_transitions (x :: rest) (set_of_atoms la) = (Ok r, t) ->
  match fault d x with
  | Some f => r = Some false /\ exists msg, line f = Some msg /\ t = [Print msg]
  | None => check_transitions rest (set_of_atoms la) = (Ok r, t)
  end.
Proof.
  intros Hst. cbn [check_transitions].
  destruct (all_in ["from"; "to"; "event"] x) as [[|]|e] eqn:Hall;
    run_step; cbn [negb].
  2:{ rewrite (all_in_false_incomplete d x Hall), bind_print_ret.
      intros [= <- <-]. report_line. }
  2:{ discriminate. }
  destruct x as [a|l|x]; try (cbn; discriminate).
  rewrite all_in_fields in Hall. unfold fault.
  destruct (field "from" (PDict x)) as [from|] eqn:Hf; [|discriminate].
  destruct (field "to" (PDict x)) as [to|] eqn:Ht; [|discriminate].
  destruct (field "event" (PDict x)) as [event|] eqn:He; [|discriminate].
  cbn in Hf, Ht, He. unfold outside_states, py_getitem. rewrite Hf, Ht, He. cbn [rbind].
  destruct from as [fa| |]; cbn [py_in_set rbind]; try (cbn; discriminate).
  rewrite (declared_atom d la fa Hst).
  destruct (set_mem fa (set_of_atoms la)); cbn [negb rbind andb].
  2:{ run_step. rewrite bind_print_ret. intros [= <- <-]. report_line. }
  destruct to as [ta| |]; cbn [py_in_set rbind]; try (cbn; discriminate).
  rewrite (declared_atom d la ta Hst).
  destruct (set_mem ta (set_of_atoms la)); cbn [negb rbind andb];
    run_step.
  2:{ rewrite bind_print_ret. intros [= <- <-]. report_line. }
  run_step. rewrite nonempty_string_test.
  destruct (nonempty_string event); cbn [negb].
  - trivial.
  - rewrite bind_print_ret. intros [= <- <-]. report_line.
Qed.

Lemma check_transitions_ok d la ts r t :
  states_of d = map PAtom la ->
  check_transitions ts (set_of_atoms la) = (Ok r, t) ->
  match first_fault d ts with
  | Some f => r = Some false /\ exists msg, line f = Some msg /\ t = [Print msg]
  | None => r = None /\ t = []
  end.
Proof.
  intros Hst. induction ts as [|x ts IH]; cbn [first_fault].
  - cbn. intros [= <- <-]. auto.
  - intros H. pose proof (check_transitions_step d la x ts r t Hst H) as Hstep.
    destruct (fault d x) as [f|]; [exact Hstep | exact (IH Hstep)].
Qed.



Lemma check_transitions_pass d la x rest :
  states_of d = map PAtom la ->
  fault d x = None ->
  check_transitions (x :: rest) (set_of_atoms la) = check_transitions rest (set_of_atoms la).
Proof.
  intros Hst. unfold fault.
  destruct x as [a|l|x]; try discriminate.
  destruct (field "from" (PDict x)) as [from|] eqn:Hf; [|discriminate].
  destruct (field "to" (PDict x)) as [to|] eqn:Ht; [|discriminate].
  destruct (field "event" (PDict x)) as [event|] eqn:He; [|discriminate].
  destruct (declared d from) eqn:Hdf; [|discriminate].
  destruct (declared d to) eqn:Hdt; [|discriminate].
  cbn [andb negb]. destruct (nonempty_string event) eqn:Hev; [|discriminate].
  intros _. cbn [check_transitions]. rewrite all_in_fields, Hf, Ht, He. run_step.
  cbn [negb]. cbn in Hf, Ht, He. unfold outside_states, py_getitem.
  rewrite Hf, Ht, He. cbn [rbind].
  assert (Hatom : forall v, declared d v = true ->
                  exists a, v = PAtom a /\ set_mem a (set_of_atoms la) = true).
  { intros v Hv. pose proof Hv as Hv0. unfold declared in Hv. rewrite Hst in Hv.
    apply existsb_exists in Hv. destruct Hv as (y & Hy & Hvy).
    apply in_map_iff in Hy. destruct Hy as (a & <- & _).
    destruct (py_eq_atom_r _ _ Hvy) as (b & -> & _).
    exists b. split; [reflexivity|]. now rewrite <- (declared_atom d la b Hst). }
  destruct (Hatom _ Hdf) as (fa & -> & Hfa). destruct (Hatom _ Hdt) as (ta & -> & Hta).
  cbn [py_in_set rbind]. rewrite Hfa. cbn [negb rbind py_in_set]. rewrite Hta.
  cbn [negb]. run_step. rewrite nonempty_string_test, Hev. reflexivity.
Qed.

Lemma check_transitions_skip d la pre rest :
  states_of d = map PAtom la ->
  first_fault d pre = None ->
  check_transitions (pre ++ rest) (set_of_atoms la) = check_transitions rest (set_of_atoms la).
Proof.
  intros Hst. induction pre as [|x pre IH]; cbn [first_fault app]; [reflexivity|].
  destruct (fault d x) eqn:Hx; [discriminate|]. intros H.
  rewrite (check_transitions_pass d la x _ Hst Hx). exact (IH H).
Qed.

(** [any] stops at the first transition that leaves the state; it reaches a
    transition without [from] only when none before it does. *)
Lemma any_from_reach state pre t post :
  Forall has_from pre ->
  lookup (AStr "from") t = None ->
  any_from state (pre ++ PDict t :: post) =
  if existsb (leaves state) pre then Ok true else Raise (LibError (KeyError "from")).
Proof.
  intros Hpre Ht. induction Hpre as [|x pre [from Hx] _ IH]; cbn [app any_from existsb].
  - unfold py_getitem. rewrite Ht. reflexivity.
  - unfold leaves. rewrite Hx. destruct x as [a|l|x]; try discriminate.
    cbn in Hx. unfold py_getitem. rewrite Hx. cbn [rbind]. fold (leaves state).
    destruct (py_eq from state); [reflexivity | exact IH].
Qed.

Lemma state_with_no_transitions_reach states pre t post :
  Forall has_from pre ->
  lookup (AStr "from") t = None ->
  state_with_no_transitions states (pre ++ PDict t :: post) =
  if forallb (fun s => existsb (leaves s) pre) states then Ok []
  else Raise (LibError (KeyError "from")).
Proof.
  intros Hpre Ht. induction states as [|s states IH];
    cbn [state_with_no_transitions forallb]; [reflexivity|].
  rewrite (any_from_reach s pre t post Hpre Ht).
  destruct (existsb (leaves s) pre); cbn [rbind andb]; [|reflexivity].
  rewrite IH. destruct (forallb _ states); reflexivity.
Qed.

(** The validator on a document that passes the first four checks. *)
Lemma protocol_checks_front d la ts :
  has_key "protocol_name" d = true ->
  lookup (AStr "states") d = Some (PList (map PAtom la)) ->
  la <> [] ->
  has_duplicate (map PAtom la) = false ->
  lookup (AStr "transitions") d = Some (PList ts) ->
  ts <> [] ->
  protocol_checks (PDict d) =
  (found <- lift (state_with_no_transitions (map PAtom la) ts) ;;
   if nonempty found then
     names <- lift (join_list ", " found) ;;
     console_print (error_line [Lit "States with no transitions: "; Val (PStr names)]) ;;
     ret false
   else
     bad <- check_transitions ts (set_of_atoms la) ;;
     match bad with
     | Some verdict => ret verdict
     | None => ret true
     end)%eff.
Proof.
  intros Hname Hsv Hla Hdup Htv Hts.
  unfold protocol_checks. rewrite check_required_keys_run.
  unfold required_keys, has_key in *. cbn [find].
  destruct (lookup (AStr "protocol_name") d); [|discriminate].
  rewrite Hsv, Htv. cbn [negb]. run_step. unfold py_getitem. rewrite Hsv, Htv. run_step.
  cbn [is_list negb orb list_items].
  destruct la as [|a la]; [now elim Hla|]. destruct ts as [|x ts]; [now elim Hts|].
  change (Nat.ltb (List.length (map PAtom (a :: la))) 1) with false.
  change (Nat.ltb (List.length (x :: ts)) 1) with false. cbn iota. run_step.
  unfold py_set. rewrite atoms_of_map. cbn [rbind]. run_step.
  rewrite length_map, set_cardinality_duplicates, Hdup. cbn [negb]. reflexivity.
Qed.

(** *** The settings validator, machine by machine *)

Lemma check_machines_ready items :
  forallb ready items = true -> check_machines items = Ok tt.
Proof.
  induction items as [|[name data] items IH]; cbn [forallb check_machines];
    [reflexivity|].
  rewrite andb_true_iff. intros [Hr Hrest]. unfold ready, initial_state_of in Hr.
  cbn [snd] in Hr. destruct data as [a|l|m]; try discriminate.
  cbn [py_in py_getitem].
  destruct (lookup (AStr "Initial_state") m) as [v|]; [|discriminate].
  cbn [rbind negb]. rewrite Hr. cbn [negb]. exact (IH Hrest).
Qed.

Lemma check_machines_first pre name data post :
  forallb ready pre = true ->
  ready (name, PDict data) = false ->
  check_machines (pre ++ (name, PDict data) :: post) =
  Raise (ValueError match lookup (AStr "Initial_state") data with
                    | None => missing_initial_state name
                    | Some _ => empty_initial_state name
                    end).
Proof.
  intros Hpre Hbad. induction pre as [|[n v] pre IH]; cbn [app check_machines].
  - unfold ready, initial_state_of in Hbad. cbn [snd] in Hbad. cbn [py_in py_getitem].
    destruct (lookup (AStr "Initial_state") data) as [v|]; [|reflexivity].
    cbn [rbind negb]. now rewrite Hbad.
  - cbn [forallb] in Hpre. apply andb_true_iff in Hpre. destruct Hpre as [Hr Hrest].
    unfold ready, initial_state_of in Hr. cbn [snd] in Hr.
    destruct v as [a|l|m]; try discriminate. cbn [py_in py_getitem].
    destruct (lookup (AStr "Initial_state") m) as [w|]; [|discriminate].
    cbn [rbind negb]. rewrite Hr. cbn [negb]. exact (IH Hrest).
Qed.

(** *** The rows of the protocol table *)

(** C1.  On the document with states [A, B] and the single transition from
    [A] to [B] on [go], the projector prints one table.  The row of [A] reads
    ["go"] under Event and ["(A -> B)"] under Transition.  The row of [B]
    reads ["No transitions"] under Event and ["No event"] under Transition:
    the two placeholders are appended in the opposite order to the columns. *)
Theorem protocol_read_oneway :
  exists t,
    protocol_read Sample.fs Sample.safe_load "oneway.yaml" =
      (Ok tt, [Open "oneway.yaml"; Print [Lit "Protocol: "; Val (PStr "oneway")];
               PrintTable t])
    /\ columns t = ["State"; "Event"; "Transition"]
    /\ List.length (rows t) = 2
    /\ cell_of t "A" "Event" = Some "go"
    /\ cell_of t "A" "Transition" = Some "(A -> B)"
    /\ cell_of t "B" "Event" = Some "No transitions"
    /\ cell_of t "B" "Transition" = Some "No event".
Proof. eexists. repeat split; vm_compute; reflexivity. Qed.

(** *** A validated document can be projected *)





(** *** Validators, projectors and driver *)

Section Validators.

Variable fs : string -> option string.
Variable safe_load : string -> option pyval.

Local Abbreviation read_document := (read_document fs safe_load).
Local Abbreviation validate_protocol_file := (validate_protocol_file fs safe_load).
Local Abbreviation validate_settings_file := (validate_settings_file fs safe_load).
Local Abbreviation protocol_read := (protocol_read fs safe_load).
Local Abbreviation settings_read := (settings_read fs safe_load).
Local Abbreviation main := (main fs safe_load).



(** C9, as the code has it.  In a document that passes the first four checks,
    take a transition whose predecessors all have a [from].  If it has no
    [from] and some state is left by none of the predecessors, the fifth check
    reaches it and raises [KeyError]: the validator fails with the generic
    reading diagnostic.  If it has no [from] and every state is left by a
    predecessor, the fifth check never looks at it; when the predecessors pass
    the sixth check, the sixth check reports it with the missing-field line.
    The same line reports a transition that has a [from] but no [to] or no
    [event], when the fifth check passes. *)
Theorem transition_without_from path d la pre t post :
  read_document path = Ok (PDict d) ->
  has_key "protocol_name" d = true ->
  lookup (AStr "states") d = Some (PList (map PAtom la)) ->
  la <> [] ->
  has_duplicate (map PAtom la) = false ->
  lookup (AStr "transitions") d = Some (PList (pre ++ PDict t :: post)) ->
  Forall has_from pre ->
  let missing_field :=
    (Ok false,
     [Open path;
      Print (error_line [Lit "Each transition must contain 'from', 'to', and 'event'"])])
  in
  (lookup (AStr "from") t = None ->
   forallb (fun s => existsb (leaves s) pre) (map PAtom la) = false ->
   validate_protocol_file path =
     (Ok false, [Open path; Print (reading_error (LibError (KeyError "from")))]))
  /\ (lookup (AStr "from") t = None ->
      forallb (fun s => existsb (leaves s) pre) (map PAtom la) = true ->
      first_fault d pre = None ->
      validate_protocol_file path = missing_field)
  /\ (lookup (AStr "from") t <> None ->
      lookup (AStr "to") t = None \/ lookup (AStr "event") t = None ->
      state_with_no_transitions (map PAtom la) (pre ++ PDict t :: post) = Ok [] ->
      first_fault d pre = None ->
      validate_protocol_file path = missing_field).
Proof.
  intros Hread Hname Hsv Hla Hdup Htv Hpre missing_field. subst missing_field.
  assert (Hts : pre ++ PDict t :: post <> []) by (destruct pre; discriminate).
  pose proof (protocol_checks_front d la _ Hname Hsv Hla Hdup Htv Hts) as Hfront.
  assert (Hst : states_of d = map PAtom la) by (unfold states_of; now rewrite Hsv).
  rewrite validate_protocol_file_run, Hread, Hfront.
  split; [|split].
  - intros Ht Hall.
    rewrite (state_with_no_transitions_reach _ pre t post Hpre Ht), Hall. reflexivity.
  - intros Ht Hall Hfault.
    rewrite (state_with_no_transitions_reach _ pre t post Hpre Ht), Hall.
    run_step. cbn [nonempty].
    rewrite (check_transitions_skip d la pre _ Hst Hfault).
    cbn [check_transitions]. rewrite all_in_fields. cbn [field]. rewrite Ht.
    run_step. cbn [negb]. rewrite bind_print_ret. reflexivity.
  - intros Hfrom Hmissing Hlive Hfault. rewrite Hlive. run_step. cbn [nonempty].
    rewrite (check_transitions_skip d la pre _ Hst Hfault).
    cbn [check_transitions]. rewrite all_in_fields. cbn [field].
    destruct (lookup (AStr "from") t); [|now elim Hfrom].
    assert (Hfields : match lookup (AStr "to") t, lookup (AStr "event") t with
                      | Some _, Some _ => true
                      | _, _ => false
                      end = false).
    { destruct Hmissing as [-> | ->]; [reflexivity|].
      destruct (lookup (AStr "to") t); reflexivity. }
    rewrite Hfields. run_step. cbn [negb]. rewrite bind_print_ret. reflexivity.
Qed.

(** C2, as the code has it.  The settings validator has no clause for errors
    other than [ValueError]: when the file cannot be opened, is not
    well-formed YAML, or holds a document of another shape (a scalar that is
    not a string, such as the null of an empty file; a sequence of two or more
    items), the error leaves the validator. *)
Theorem validate_settings_file_raises path :
  (fs path = None ->
     validate_settings_file path = (Raise (LibError (OSError path)), [Open path]))
  /\ (forall contents,
        fs path = Some contents -> safe_load contents = None ->
        validate_settings_file path = (Raise (LibError YAMLError), [Open path]))
  /\ (forall contents a,
        fs path = Some contents -> safe_load contents = Some (PAtom a) ->
        is_str (PAtom a) = false ->
        validate_settings_file path = (Raise (LibError TypeError), [Open path]))
  /\ (forall contents l,
        fs path = Some contents -> safe_load contents = Some (PList l) ->
        2 <= List.length l ->
        validate_settings_file path = (Raise (LibError AttributeError), [Open path])).
Proof.
  repeat split; intros.
  - rewrite validate_settings_file_run. unfold Main.read_document. now rewrite H.
  - rewrite validate_settings_file_run. unfold Main.read_document. now rewrite H, H0.
  - rewrite validate_settings_file_run. unfold Main.read_document. rewrite H, H0.
    destruct a as [| | |s]; try reflexivity. discriminate.
  - rewrite validate_settings_file_run. unfold Main.read_document. rewrite H, H0.
    unfold settings_checks. cbn [py_len rbind].
    destruct (Nat.ltb_spec (List.length l) 2); [lia | reflexivity].
Qed.

End Validators.

(** *** The theorems on the sample files *)

Section OnSamples.

Local Abbreviation fs := Sample.fs.
Local Abbreviation safe_load := Sample.safe_load.


Lemma transition_without_from_witness :
  validate_protocol_file fs safe_load "nofrom.yaml" =
    (Ok false, [Open "nofrom.yaml"; Print (reading_error (LibError (KeyError "from")))])
  /\ validate_protocol_file fs safe_load "loop.yaml" =
       (Ok false,
        [Open "loop.yaml";
         Print (error_line
                  [Lit "Each transition must contain 'from', 'to', and 'event'"])])
  /\ validate_protocol_file fs safe_load "silent.yaml" =
       (Ok false,
        [Open "silent.yaml";
         Print (error_line
                  [Lit "Each transition must contain 'from', 'to', and 'event'"])]).
Proof.
  split; [|split].
  - refine (proj1 (transition_without_from fs safe_load "nofrom.yaml" _ [AStr "A"]
                     [] [(AStr "to", PStr "A"); (AStr "event", PStr "go")]
                     [Sample.transition "A" "A" "go"]
                     eq_refl eq_refl eq_refl _ eq_refl eq_refl (Forall_nil _))
                  eq_refl eq_refl).
    discriminate.
  - refine (proj1 (proj2 (transition_without_from fs safe_load "loop.yaml" _ [AStr "A"]
                     [Sample.transition "A" "A" "go"]
                     [(AStr "to", PStr "A"); (AStr "event", PStr "go")] []
                     eq_refl eq_refl eq_refl _ eq_refl eq_refl _))
                  eq_refl eq_refl eq_refl).
    + discriminate.
    + constructor; [|constructor]. exists (PStr "A"). reflexivity.
  - refine (proj2 (proj2 (transition_without_from fs safe_load "silent.yaml" _
                     [AStr "A"; AStr "B"]
                     [Sample.transition "A" "B" "go"; Sample.transition "B" "A" "back"]
                     [(AStr "from", PStr "A"); (AStr "to", PStr "A")] []
                     eq_refl eq_refl eq_refl _ eq_refl eq_refl _))
                  _ (or_intror eq_refl) eq_refl eq_refl).
    + discriminate.
    + repeat constructor; eexists; reflexivity.
    + discriminate.
Defined.

(** C9, as stated, fails on [loop.yaml]: its second transition has no [from],
    every other part of the document is well-formed, and the validator
    answers with the missing-field line of the sixth check, not with the
    reading diagnostic. *)
Lemma loop_reports_missing_field :
  Main.read_document fs safe_load "loop.yaml" =
    Ok (Sample.protocol "loop" ["A"]
          [Sample.transition "A" "A" "go";
           PDict [(AStr "to", PStr "A"); (AStr "event", PStr "go")]])
  /\ validate_protocol_file fs safe_load "loop.yaml" =
       (Ok false,
        [Open "loop.yaml";
         Print (error_line
                  [Lit "Each transition must contain 'from', 'to', and 'event'"])])
  /\ validate_protocol_file fs safe_load "loop.yaml" <>
       (Ok false, [Open "loop.yaml"; Print (reading_error (LibError (KeyError "from")))]).
Proof. split; [|split]; [reflexivity | reflexivity | discriminate]. Qed.

Lemma validate_settings_file_raises_witness :
  validate_settings_file fs safe_load "nowhere.yml" =
    (Raise (LibError (OSError "nowhere.yml")), [Open "nowhere.yml"])
  /\ validate_settings_file fs safe_load "broken.yaml" =
       (Raise (LibError YAMLError), [Open "broken.yaml"])
  /\ validate_settings_file fs safe_load "empty.yml" =
       (Raise (LibError TypeError), [Open "empty.yml"]).
Proof.
  split; [|split].
  - destruct (validate_settings_file_raises fs safe_load "nowhere.yml") as (H & _).
    apply H. reflexivity.
  - destruct (validate_settings_file_raises fs safe_load "broken.yaml") as (_ & H & _).
    apply (H "{protocol_name: ["); reflexivity.
  - destruct (validate_settings_file_raises fs safe_load "empty.yml") as (_ & _ & H & _).
    apply (H "" ANone); reflexivity.
Defined.

(** C7, as stated, fails on [bare.yml]: both machines lack [Initial_state],
    and the only line printed names the first; no line names [m2]. *)
Lemma second_machine_not_named :
  Main.read_document fs safe_load "bare.yml" =
    Ok (PDict [(AStr "m1", PDict []); (AStr "m2", PDict [])])
  /\ initial_state_of (PDict []) = None
  /\ validate_settings_file fs safe_load "bare.yml" =
       (Ok Failed,
        [Open "bare.yml";
         Print (settings_error (ValueError (missing_initial_state (AStr "m1"))))])
  /\ ~ (exists msg,
          In msg (printed (output (validate_settings_file fs safe_load "bare.yml")))
          /\ In (Val (PStr "m2")) msg).
Proof.
  split; [reflexivity|]. split; [reflexivity|]. split; [reflexivity|].
  intros (msg & Hmsg & Hin). cbn in Hmsg. destruct Hmsg as [<-|[]].
  cbn in Hin. repeat (destruct Hin as [Hin|Hin]; [discriminate Hin|]). exact Hin.
Qed.

End OnSamples.

(* ===================================================================== *)
(** ** Further properties *)
(* ===================================================================== *)

Import Wellformed.

(** *** What the protocol validator accepts *)

Lemma any_from_total state ts :
  Forall has_from ts -> any_from state ts = Ok (existsb (leaves state) ts).
Proof.
  induction 1 as [|x ts [from Hx] _ IH]; cbn [any_from existsb]; [reflexivity|].
  unfold leaves at 1. rewrite Hx. destruct x as [a|l|x]; try discriminate.
  cbn in Hx. unfold py_getitem. rewrite Hx. cbn [rbind].
  destruct (py_eq from state); [reflexivity | exact IH].
Qed.

Lemma state_with_no_transitions_total states ts :
  Forall has_from ts ->
  state_with_no_transitions states ts =
  Ok (filter (fun state => negb (existsb (leaves state) ts)) states).
Proof.
  intros Hts. induction states as [|s states IH];
    cbn [state_with_no_transitions filter]; [reflexivity|].
  rewrite (any_from_total s ts Hts), IH. cbn [rbind].
  destruct (existsb (leaves s) ts); reflexivity.
Qed.

Lemma declared_set_mem d la v :
  states_of d = map PAtom la ->
  declared d v = true ->
  exists a, v = PAtom a /\ set_mem a la = true.
Proof.
  intros Hst Hv. pose proof Hv as Hv0. unfold declared in Hv. rewrite Hst in Hv.
  apply existsb_exists in Hv. destruct Hv as (y & Hy & Hvy).
  apply in_map_iff in Hy. destruct Hy as (a & <- & _).
  destruct (py_eq_atom_r _ _ Hvy) as (b & -> & _).
  exists b. split; [reflexivity|].
  rewrite <- set_mem_set_of_atoms, <- (declared_atom d la b Hst). exact Hv0.
Qed.

Lemma fault_none_well_formed d la x :
  states_of d = map PAtom la ->
  fault d x = None <-> well_formed_transition la x.
Proof.
  intros Hst. unfold fault, well_formed_transition. split.
  - destruct (field "from" x) as [from|]; [|discriminate].
    destruct (field "to" x) as [to|]; [|discriminate].
    destruct (field "event" x) as [event|]; [|discriminate].
    destruct (declared d from) eqn:Hf; [|discriminate].
    destruct (declared d to) eqn:Ht; [|discriminate].
    cbn [andb negb]. destruct event as [[| | |ev]| |]; try discriminate.
    cbn [nonempty_string]. destruct (String.eqb_spec ev ""); [discriminate|].
    intros _.
    destruct (declared_set_mem d la _ Hst Hf) as (fa & -> & Hfa).
    destruct (declared_set_mem d la _ Hst Ht) as (ta & -> & Hta).
    exists fa, ta, ev. auto 10.
  - intros (fa & ta & ev & -> & Hfa & -> & Hta & -> & Hev).
    rewrite !(declared_atom d la _ Hst), !set_mem_set_of_atoms, Hfa, Hta.
    cbn. destruct (String.eqb_spec ev ""); [contradiction | reflexivity].
Qed.

Lemma first_fault_none d la ts :
  states_of d = map PAtom la ->
  first_fault d ts = None <-> Forall (well_formed_transition la) ts.
Proof.
  intros Hst. induction ts as [|x ts IH]; cbn [first_fault].
  - split; [constructor | reflexivity].
  - destruct (fault d x) eqn:Hx.
    + split; [discriminate|]. intros H. inversion H as [|? ? Hwf _]; subst.
      apply (fault_none_well_formed d la x Hst) in Hwf. congruence.
    + rewrite IH. split.
      * intros H. constructor; [now apply (fault_none_well_formed d la x Hst) | exact H].
      * intros H. now inversion H.
Qed.

Lemma well_formed_has_from la ts :
  Forall (well_formed_transition la) ts -> Forall has_from ts.
Proof.
  apply Forall_impl. intros t (from & _ & _ & H & _). now exists (PAtom from).
Qed.

Lemma filter_nil_iff {A} (f : A -> bool) l :
  filter f l = [] <-> forall x, In x l -> f x = false.
Proof.
  induction l as [|a l IH]; cbn.
  - split; [intros _ x [] | reflexivity].
  - destruct (f a) eqn:Ha.
    + split; [discriminate|]. intros H. specialize (H a (or_introl eq_refl)). congruence.
    + rewrite IH. split.
      * intros H x [<-|Hx]; auto.
      * intros H x Hx. apply H. now right.
Qed.

(** The checks, on a mapping: they succeed exactly on a well-formed
    protocol. *)
Lemma protocol_checks_true d :
  outcome (protocol_checks (PDict d)) = Ok true <-> well_formed_protocol d.
Proof.
  split.
  - intros Hrun.
    unfold protocol_checks in Hrun. rewrite check_required_keys_run in Hrun.
    unfold required_keys in Hrun.
    destruct (find _ ["protocol_name"; "states"; "transitions"]) as [k|] eqn:Hfind;
      [discriminate|].
    cbn in Hfind. unfold has_key in Hfind.
    destruct (lookup (AStr "protocol_name") d) as [name|] eqn:Hname;
      cbn in Hfind; [|discriminate].
    destruct (lookup (AStr "states") d) as [sv|] eqn:Hsv; cbn in Hfind; [|discriminate].
    destruct (lookup (AStr "transitions") d) as [tv|] eqn:Htv; cbn in Hfind;
      [|discriminate].
    revert Hrun. run_step. unfold py_getitem. rewrite Hsv, Htv. run_step.
    destruct sv as [a|[|s ss]|dd]; try discriminate.
    cbn [is_list negb orb list_items].
    change (Nat.ltb (List.length (s :: ss)) 1) with false. cbn iota. run_step.
    destruct tv as [a|[|x ts]|dd]; try discriminate.
    cbn [is_list negb orb list_items].
    change (Nat.ltb (List.length (x :: ts)) 1) with false. cbn iota.
    unfold py_set.
    destruct (atoms_of (s :: ss)) as [la|e] eqn:Hla; cbn [rbind]; run_step;
      [|discriminate].
    pose proof (atoms_of_ok _ _ Hla) as Hss. rewrite Hss, length_map.
    rewrite set_cardinality_duplicates, negb_involutive.
    destruct (has_duplicate (map PAtom la)) eqn:Hdup; [discriminate|].
    destruct (state_with_no_transitions (map PAtom la) (x :: ts)) as [found|e] eqn:Hfound;
      run_step; [|discriminate].
    pose proof (state_with_no_transitions_ok _ _ _ Hfound) as Hfilter.
    destruct found as [|s0 found]; cbn [nonempty].
    2:{ destruct (join_list ", " (s0 :: found)); run_step; discriminate. }
    assert (Hst : states_of d = map PAtom la) by (unfold states_of; now rewrite Hsv, Hss).
    destruct (check_transitions (x :: ts) (set_of_atoms la)) as [[r|e] t] eqn:Hct;
      [|discriminate].
    pose proof (check_transitions_ok d la (x :: ts) r t Hst Hct) as Hspec.
    destruct (first_fault d (x :: ts)) eqn:Hfault.
    { destruct Hspec as (-> & _). discriminate. }
    intros _. split; [unfold has_key; now rewrite Hname|].
    rewrite Hss in Hsv. exists la, (x :: ts). repeat split; try assumption.
    + intros ->. discriminate.
    + discriminate.
    + intros a Ha. symmetry in Hfilter.
      pose proof (proj1 (filter_nil_iff _ _) Hfilter (PAtom a) (in_map PAtom _ _ Ha)) as H.
      apply negb_false_iff, existsb_exists in H. destruct H as (t0 & Ht0 & Hl).
      exists t0. split; assumption.
    + now apply (first_fault_none d la _ Hst).
  - intros (Hname & la & ts & Hsv & Hla & Hdup & Htv & Hts & Hlive & Hwf).
    rewrite (protocol_checks_front d la ts Hname Hsv Hla Hdup Htv Hts).
    rewrite (state_with_no_transitions_total _ _ (well_formed_has_from la ts Hwf)).
    assert (Hnone : filter (fun state => negb (existsb (leaves state) ts)) (map PAtom la)
                    = []).
    { apply filter_nil_iff. intros v Hv. apply in_map_iff in Hv.
      destruct Hv as (a & <- & Ha). destruct (Hlive a Ha) as (t0 & Ht0 & Hl).
      apply negb_false_iff, existsb_exists. eauto. }
    rewrite Hnone. run_step. cbn [nonempty].
    assert (Hst : states_of d = map PAtom la) by (unfold states_of; now rewrite Hsv).
    pose proof (proj2 (first_fault_none d la ts Hst) Hwf) as Hfault.
    pose proof (check_transitions_skip d la ts [] Hst Hfault) as Hskip.
    rewrite app_nil_r in Hskip. rewrite Hskip. reflexivity.
Qed.

(** On a document that is not a mapping the checks never succeed. *)
Lemma protocol_checks_true_mapping content :
  outcome (protocol_checks content) = Ok true -> exists d, content = PDict d.
Proof.
  destruct content as [a|l|d]; [| |eauto]; unfold protocol_checks.
  - pose proof (check_required_keys_loop required_keys (PAtom a)) as H.
    destruct (check_required_keys required_keys (PAtom a)) as [[[b|]|e] t]; cbn in H.
    + destruct H as (-> & _). discriminate.
    + subst t. discriminate.
    + discriminate.
  - pose proof (check_required_keys_loop required_keys (PList l)) as H.
    destruct (check_required_keys required_keys (PList l)) as [[[b|]|e] t]; cbn in H.
    + destruct H as (-> & _). discriminate.
    + subst t. discriminate.
    + discriminate.
Qed.

Section Acceptance.

Variable fs : string -> option string.
Variable safe_load : string -> option pyval.

(** X1.  The protocol validator returns [True] exactly when the file holds a
    well-formed protocol mapping; it then prints nothing. *)
Theorem validate_protocol_file_accepts path :
  outcome (validate_protocol_file fs safe_load path) = Ok true <->
  exists d, read_document fs safe_load path = Ok (PDict d) /\ well_formed_protocol d.
Proof.
  rewrite validate_protocol_file_run. split.
  - destruct (read_document fs safe_load path) as [content|e]; [|discriminate].
    intros H.
    assert (Hc : outcome (protocol_checks content) = Ok true).
    { destruct (protocol_checks content) as [[[|]|e] t]; try discriminate. reflexivity. }
    destruct (protocol_checks_true_mapping content Hc) as (d & ->).
    exists d. split; [reflexivity|]. now apply protocol_checks_true.
  - intros (d & -> & Hwf). apply protocol_checks_true in Hwf.
    destruct (protocol_checks (PDict d)) as [[[|]|e] t]; try discriminate. reflexivity.
Qed.

End Acceptance.

(** *** Documents of the expected types *)

Lemma strings_atoms l :
  Forall (fun v => is_str v = true) l -> exists la, l = map PAtom la.
Proof.
  induction 1 as [|v l Hv _ (la & ->)]; [now exists []|].
  destruct v as [[| | |s]| |]; try discriminate. now exists (AStr s :: la).
Qed.

Lemma strings_of_strings l :
  Forall (fun v => is_str v = true) l -> exists ss, strings_of l = Ok ss.
Proof.
  induction 1 as [|v l Hv _ (ss & IH)]; [now exists []|].
  destruct v as [[| | |s]| |]; try discriminate.
  cbn [strings_of]. rewrite IH. now exists (s :: ss).
Qed.

Lemma check_transitions_typed ts state_set :
  Forall typed_transition ts ->
  is_ok (outcome (check_transitions ts state_set)) = true.
Proof.
  induction 1 as [|x ts [[from Hfrom] Hto] _ IH]; [reflexivity|].
  cbn [check_transitions]. destruct x as [a|l|x]; try discriminate.
  rewrite all_in_fields, Hfrom. cbn [field] in *.
  destruct (lookup (AStr "to") x) as [to|] eqn:Ht; run_step; [|reflexivity].
  destruct (lookup (AStr "event") x) as [event|] eqn:He; run_step; [|reflexivity].
  cbn [negb]. unfold outside_states, py_getitem. rewrite Hfrom, Ht, He.
  cbn [rbind py_in_set].
  destruct (set_mem from state_set); cbn [negb rbind]; run_step; [|reflexivity].
  destruct (Hto to eq_refl) as (ta & ->). cbn [py_in_set rbind].
  destruct (set_mem ta state_set); cbn [negb]; run_step; [|reflexivity].
  destruct (negb (is_str event) || negb (truthy event)); [reflexivity | exact IH].
Qed.

Lemma typed_has_from ts : Forall typed_transition ts -> Forall has_from ts.
Proof. apply Forall_impl. intros t [[from H] _]. now exists (PAtom from). Qed.

(** On a mapping of the expected types no check raises. *)
Lemma protocol_checks_typed d :
  typed_protocol d -> is_ok (outcome (protocol_checks (PDict d))) = true.
Proof.
  intros [Hstates Htrans]. unfold protocol_checks. rewrite check_required_keys_run.
  unfold required_keys.
  destruct (find _ ["protocol_name"; "states"; "transitions"]) as [k|] eqn:Hfind;
    [reflexivity|].
  cbn in Hfind. unfold has_key in Hfind.
  destruct (lookup (AStr "protocol_name") d); cbn in Hfind; [|discriminate].
  destruct (lookup (AStr "states") d) as [sv|] eqn:Hsv; cbn in Hfind; [|discriminate].
  destruct (lookup (AStr "transitions") d) as [tv|] eqn:Htv; cbn in Hfind; [|discriminate].
  run_step. unfold py_getitem. rewrite Hsv, Htv. run_step.
  destruct sv as [a|[|s ss]|dd]; try reflexivity.
  cbn [is_list negb orb list_items].
  change (Nat.ltb (List.length (s :: ss)) 1) with false. cbn iota. run_step.
  destruct tv as [a|[|x ts]|dd]; try reflexivity.
  cbn [is_list negb orb list_items].
  change (Nat.ltb (List.length (x :: ts)) 1) with false. cbn iota.
  specialize (Hstates _ eq_refl). specialize (Htrans _ eq_refl).
  destruct (strings_atoms _ Hstates) as (la & Hla). rewrite Hla in *.
  unfold py_set. rewrite atoms_of_map. cbn [rbind]. run_step.
  destruct (negb _); [reflexivity|].
  rewrite (state_with_no_transitions_total _ _ (typed_has_from _ Htrans)). run_step.
  destruct (filter _ (map PAtom la)) as [|s0 found] eqn:Hfound; cbn [nonempty].
  - pose proof (check_transitions_typed (x :: ts) (set_of_atoms la) Htrans) as H.
    destruct (check_transitions (x :: ts) (set_of_atoms la)) as [[[b|]|e] t];
      try discriminate; reflexivity.
  - assert (Hstr : Forall (fun v => is_str v = true) (s0 :: found)).
    { rewrite <- Hfound. apply Forall_forall. intros v Hv.
      apply filter_In in Hv. destruct Hv as [Hv _].
      now apply (proj1 (Forall_forall _ _) Hstates). }
    destruct (strings_of_strings _ Hstr) as (names & Hnames).
    unfold join_list. rewrite Hnames. reflexivity.
Qed.

(** *** Duplicate, unhashable and dead states *)

Lemma has_duplicate_split pre x mid y post :
  atom_eqb x y = true ->
  has_duplicate (map PAtom (pre ++ x :: mid ++ y :: post)) = true.
Proof.
  intros Hxy. induction pre as [|a pre IH]; cbn [app map has_duplicate].
  - apply orb_true_iff. left. apply existsb_exists. exists (PAtom y). split.
    + rewrite map_app. apply in_or_app. right. now left.
    + exact Hxy.
  - rewrite IH. apply orb_true_r.
Qed.

Lemma has_duplicate_found l :
  has_duplicate (map PAtom l) = true ->
  exists pre x mid y post, l = pre ++ x :: mid ++ y :: post /\ atom_eqb x y = true.
Proof.
  induction l as [|a l IH]; cbn [map has_duplicate]; [discriminate|].
  rewrite orb_true_iff, existsb_py_eq_atoms. intros [H|H].
  - unfold set_mem in H. apply existsb_exists in H. destruct H as (y & Hy & Hay).
    apply in_split in Hy. destruct Hy as (mid & post & ->).
    exists [], a, mid, y, post. auto.
  - destruct (IH H) as (pre & x & mid & y & post & -> & Hxy).
    exists (a :: pre), x, mid, y, post. auto.
Qed.

Lemma atoms_of_unhashable l :
  existsb (fun v => match v with PAtom _ => false | _ => true end) l = true ->
  atoms_of l = Raise (LibError TypeError).
Proof.
  induction l as [|v l IH]; cbn [existsb atoms_of]; [discriminate|].
  destruct v as [a|items|entries]; cbn [orb]; try reflexivity.
  intros H. rewrite (IH H). reflexivity.
Qed.

Lemma strings_of_not_string l :
  existsb (fun v => negb (is_str v)) l = true ->
  strings_of l = Raise (LibError TypeError).
Proof.
  induction l as [|v l IH]; cbn [existsb strings_of]; [discriminate|].
  destruct v as [[| | |s]| |]; cbn [is_str negb orb]; try reflexivity.
  intros H. rewrite (IH H). reflexivity.
Qed.

Lemma strings_of_map names : strings_of (map (fun s => PStr s) names) = Ok names.
Proof. induction names as [|s names IH]; cbn; [reflexivity | now rewrite IH]. Qed.

(** The validator on a mapping that passes the first three checks. *)
Lemma protocol_checks_lists d ss ts :
  has_key "protocol_name" d = true ->
  lookup (AStr "states") d = Some (PList ss) ->
  ss <> [] ->
  lookup (AStr "transitions") d = Some (PList ts) ->
  ts <> [] ->
  protocol_checks (PDict d) =
  (distinct <- lift (py_set ss) ;;
   if negb (Nat.eqb (List.length ss) (List.length distinct)) then
     console_print (error_line [Lit "Duplicate states found"]) ;;
     ret false
   else
     state_set <- lift (py_set ss) ;;
     found <- lift (state_with_no_transitions ss ts) ;;
     if nonempty found then
       names <- lift (join_list ", " found) ;;
       console_print (error_line [Lit "States with no transitions: "; Val (PStr names)]) ;;
       ret false
     else
       bad <- check_transitions ts state_set ;;
       match bad with
       | Some verdict => ret verdict
       | None => ret true
       end)%eff.
Proof.
  intros Hname Hsv Hss Htv Hts.
  unfold protocol_checks. rewrite check_required_keys_run.
  unfold required_keys, has_key in *. cbn [find].
  destruct (lookup (AStr "protocol_name") d); [|discriminate].
  rewrite Hsv, Htv. cbn [negb]. run_step. unfold py_getitem. rewrite Hsv, Htv. run_step.
  cbn [is_list negb orb list_items].
  destruct ss as [|s ss]; [now elim Hss|]. destruct ts as [|x ts]; [now elim Hts|].
  change (Nat.ltb (List.length (s :: ss)) 1) with false.
  change (Nat.ltb (List.length (x :: ts)) 1) with false. cbn iota. run_step.
  reflexivity.
Qed.

Section States.

Variable fs : string -> option string.
Variable safe_load : string -> option pyval.

Local Abbreviation read_document := (read_document fs safe_load).
Local Abbreviation validate_protocol_file := (validate_protocol_file fs safe_load).

(** X3.  Two equal entries in [states] (equal as Python compares scalars, so
    [True] and [1] count as equal) make the validator answer with the
    duplicate-states line, whatever the transitions contain; and that answer
    is only given for such a list. *)
Theorem duplicate_states_reported path d states ts :
  read_document path = Ok (PDict d) ->
  has_key "protocol_name" d = true ->
  lookup (AStr "states") d = Some (PList (map PAtom states)) ->
  lookup (AStr "transitions") d = Some (PList ts) ->
  ts <> [] ->
  (exists pre x mid y post,
     states = pre ++ x :: mid ++ y :: post /\ atom_eqb x y = true) <->
  validate_protocol_file path =
    (Ok false, [Open path; Print (error_line [Lit "Duplicate states found"])]).
Proof.
  intros Hread Hname Hsv Htv Hts. rewrite validate_protocol_file_run, Hread. split.
  - intros (pre & x & mid & y & post & -> & Hxy).
    assert (Hne : map PAtom (pre ++ x :: mid ++ y :: post) <> []).
    { destruct pre; discriminate. }
    rewrite (protocol_checks_lists d _ ts Hname Hsv Hne Htv Hts).
    unfold py_set. rewrite atoms_of_map. cbn [rbind]. run_step.
    rewrite length_map, set_cardinality_duplicates,
      (has_duplicate_split pre x mid y post Hxy).
    reflexivity.
  - intros Hrun. apply has_duplicate_found.
    destruct states as [|s0 states].
    { exfalso. revert Hrun. unfold protocol_checks. rewrite check_required_keys_run.
      unfold required_keys, has_key in *. cbn [find].
      destruct (lookup (AStr "protocol_name") d); [|discriminate].
      rewrite Hsv, Htv. cbn [negb]. run_step. unfold py_getitem. rewrite Hsv. run_step.
      cbn. discriminate. }
    assert (Hne : map PAtom (s0 :: states) <> []) by discriminate.
    revert Hrun. rewrite (protocol_checks_lists d _ ts Hname Hsv Hne Htv Hts).
    unfold py_set. rewrite atoms_of_map. cbn [rbind].
    run_step. rewrite length_map, set_cardinality_duplicates.
    destruct (has_duplicate (map PAtom (s0 :: states))); [reflexivity|]. cbn [negb].
    destruct (state_with_no_transitions _ ts) as [found|e]; run_step; [|discriminate].
    destruct (nonempty found).
    + destruct (join_list ", " found) as [names|e]; run_step; [|discriminate].
      rewrite bind_print_ret. discriminate.
    + pose proof (check_transitions_loop ts (set_of_atoms (s0 :: states))) as Hloop.
      destruct (check_transitions ts (set_of_atoms (s0 :: states))) as [[[b|]|e] t] eqn:Hct;
        try (cbn in Hloop; subst t; discriminate).
      cbn in Hloop. destruct Hloop as (-> & msg & ->). cbn. intros [= Hmsg].
      exfalso. revert Hct Hmsg. generalize (set_of_atoms (s0 :: states)). clear.
      intros set. revert msg.
      induction ts as [|x ts IH]; intros msg; cbn [check_transitions]; [discriminate|].
      destruct (all_in _ x) as [[|]|e]; run_step; cbn [negb];
        [| rewrite bind_print_ret; intros [= <-]; discriminate | discriminate].
      destruct (outside_states x set) as [[|]|e]; run_step;
        [rewrite bind_print_ret; intros [= <-]; discriminate | | discriminate].
      destruct (py_getitem x "event") as [event|e]; run_step; [|discriminate].
      destruct (negb (is_str event) || negb (truthy event));
        [rewrite bind_print_ret; intros [= <-]; discriminate | apply IH].
Qed.

(** X4.  A sequence or a mapping among the [states] is unhashable: building
    the set raises [TypeError], and the validator fails with the generic
    reading diagnostic instead of a line about the states. *)
Theorem unhashable_state_is_a_reading_error path d ss ts :
  read_document path = Ok (PDict d) ->
  has_key "protocol_name" d = true ->
  lookup (AStr "states") d = Some (PList ss) ->
  lookup (AStr "transitions") d = Some (PList ts) ->
  ts <> [] ->
  existsb (fun v => match v with PAtom _ => false | _ => true end) ss = true ->
  validate_protocol_file path =
    (Ok false, [Open path; Print (reading_error (LibError TypeError))]).
Proof.
  intros Hread Hname Hsv Htv Hts Hbad.
  assert (Hne : ss <> []) by (destruct ss; [discriminate | discriminate]).
  rewrite validate_protocol_file_run, Hread,
    (protocol_checks_lists d ss ts Hname Hsv Hne Htv Hts).
  unfold py_set. rewrite (atoms_of_unhashable ss Hbad). reflexivity.
Qed.


End States.

(** *** The protocol table *)

Lemma matching_transitions_filter state ts :
  forallb is_mapping ts = true ->
  matching_transitions state ts =
  Ok (map arrow (filter (goes_from state) ts),
      map event_label (filter (goes_from state) ts)).
Proof.
  induction ts as [|t ts IH]; cbn [forallb matching_transitions filter];
    [reflexivity|].
  rewrite andb_true_iff. intros [Ht Hts]. destruct t as [a|l|t]; try discriminate.
  rewrite (IH Hts). cbn [py_get goes_from].
  destruct (lookup (AStr "from") t) as [from|] eqn:Hf; cbn [rbind];
    destruct (py_eq _ state); try reflexivity.
  - unfold arrow, event_label, field_or. cbn [field map]. rewrite Hf.
    destruct (lookup (AStr "to") t); destruct (lookup (AStr "event") t); reflexivity.
  - unfold arrow, event_label, field_or. cbn [field map]. rewrite Hf.
    destruct (lookup (AStr "to") t); destruct (lookup (AStr "event") t); reflexivity.
Qed.

Lemma matching_transitions_not_mapping state ts :
  forallb is_mapping ts = false ->
  matching_transitions state ts = Raise (LibError AttributeError).
Proof.
  induction ts as [|t ts IH]; cbn [forallb matching_transitions]; [discriminate|].
  destruct t as [a|l|t]; try reflexivity. cbn [is_mapping andb]. intros Hts.
  rewrite (IH Hts). cbn [py_get].
  destruct (lookup (AStr "from") t); cbn [rbind]; destruct (py_eq _ state);
    try reflexivity;
    destruct (lookup (AStr "to") t); destruct (lookup (AStr "event") t); reflexivity.
Qed.

(** X6.  For one state the projector keeps exactly the transitions whose
    [from] equals the state, in their original order, and takes from each its
    arrow and its event (["N/A"] when it has none); a transition that is not
    a mapping makes the scan raise [AttributeError], wherever it stands. *)
Theorem matching_transitions_in_order state ts :
  if forallb is_mapping ts then
    matching_transitions state ts =
    Ok (map arrow (filter (goes_from state) ts),
        map event_label (filter (goes_from state) ts))
  else matching_transitions state ts = Raise (LibError AttributeError).
Proof.
  destruct (forallb is_mapping ts) eqn:H.
  - now apply matching_transitions_filter.
  - now apply matching_transitions_not_mapping.
Qed.

Lemma strings_of_labels l :
  forallb is_str l = true -> strings_of l = Ok (map label l).
Proof.
  induction l as [|v l IH]; cbn [forallb strings_of map]; [reflexivity|].
  rewrite andb_true_iff. intros [Hv Hl]. destruct v as [[| | |s]| |]; try discriminate.
  rewrite (IH Hl). reflexivity.
Qed.

Lemma renderable_label state :
  renderable_state state = true -> renderable (CVal state) = Ok [Lit (label state)].
Proof. destruct state as [[| | |s]| |]; try discriminate; reflexivity. Qed.

Lemma forallb_filter {A} (f g : A -> bool) l :
  forallb f l = true -> forallb f (filter g l) = true.
Proof.
  rewrite !forallb_forall. intros H x Hx. apply filter_In in Hx. now apply H.
Qed.

Lemma protocol_rows_map ts states t :
  forallb is_mapping ts = true ->
  forallb string_event ts = true ->
  forallb renderable_state states = true ->
  protocol_rows states (PList ts) t =
  Ok (Table (columns t) (rows t ++ map (protocol_row ts) states)).
Proof.
  intros Hmap Hev. revert t. induction states as [|state states IH]; intros t;
    cbn [forallb protocol_rows map].
  - intros _. rewrite app_nil_r. now destruct t.
  - rewrite andb_true_iff. intros [Hs Hrest]. cbn [py_iter rbind].
    rewrite (matching_transitions_filter state ts Hmap). cbn [rbind].
    unfold row_content, protocol_row. cbn [fst snd].
    assert (Hnon : nonempty (map arrow (filter (goes_from state) ts))
                   = nonempty (filter (goes_from state) ts)).
    { destruct (filter (goes_from state) ts); reflexivity. }
    rewrite Hnon.
    assert (Hstr : strings_of (map event_label (filter (goes_from state) ts))
                   = Ok (map (fun x => label (event_label x)) (filter (goes_from state) ts))).
    { rewrite strings_of_labels, map_map; [reflexivity|].
      rewrite forallb_forall. intros v Hv. apply in_map_iff in Hv.
      destruct Hv as (x & <- & Hx). apply filter_In in Hx.
      exact (proj1 (forallb_forall _ _) Hev x (proj1 Hx)). }
    unfold join_list. rewrite Hstr. cbn [rbind].
    destruct (nonempty (filter (goes_from state) ts));
      cbn [rbind]; unfold add_row; cbn [renderables];
      rewrite (renderable_label state Hs);
      cbn [rbind renderable]; rewrite (IH _ Hrest); cbn [columns rows];
      rewrite <- app_assoc; reflexivity.
Qed.

(** X7.  On a mapping whose [states] are strings (or null) and whose
    [transitions] are mappings with string events, the projector builds one
    row per state, in the order of [states]: the state, the events of the
    transitions that leave it joined by [" | "], and their arrows joined the
    same way, or the two placeholders when no transition leaves it. *)
Theorem protocol_table_rows d states ts :
  lookup (AStr "states") d = Some (PList states) ->
  lookup (AStr "transitions") d = Some (PList ts) ->
  forallb renderable_state states = true ->
  forallb is_mapping ts = true ->
  forallb string_event ts = true ->
  protocol_table (PDict d) =
  Ok (Table ["State"; "Event"; "Transition"] (map (protocol_row ts) states)).
Proof.
  intros Hs Ht Hstates Hmap Hev. unfold protocol_table. cbn [py_get].
  rewrite Hs, Ht. cbn [rbind py_iter].
  rewrite (protocol_rows_map ts states _ Hmap Hev Hstates). reflexivity.
Qed.




Section Projection.

Variable fs : string -> option string.
Variable safe_load : string -> option pyval.

Local Abbreviation read_document := (read_document fs safe_load).
Local Abbreviation validate_protocol_file := (validate_protocol_file fs safe_load).
Local Abbreviation validate_settings_file := (validate_settings_file fs safe_load).
Local Abbreviation protocol_read := (protocol_read fs safe_load).
Local Abbreviation main := (main fs safe_load).





End Projection.

(** *** The settings validator and the settings table *)

Lemma check_machines_ok items :
  check_machines items = Ok tt -> forallb ready items = true.
Proof.
  induction items as [|[name data] items IH]; cbn [check_machines forallb];
    [reflexivity|].
  unfold ready at 1, initial_state_of. cbn [snd].
  destruct data as [a|l|m].
  - destruct a as [| | |s]; cbn [py_in]; try discriminate.
    destruct (is_substring "Initial_state" s); cbn [rbind negb]; discriminate.
  - cbn [py_in rbind]. destruct (existsb _ l); cbn [negb]; discriminate.
  - cbn [py_in py_getitem]. destruct (lookup (AStr "Initial_state") m) as [v|];
      cbn [rbind negb]; [|discriminate].
    destruct (truthy v); cbn [negb andb]; [exact IH | discriminate].
Qed.

Lemma check_machines_raises items e :
  check_machines items = Raise e ->
  e = LibError TypeError
  \/ exists name data,
       In (name, data) items
       /\ (e = ValueError (missing_initial_state name)
           \/ e = ValueError (empty_initial_state name)).
Proof.
  induction items as [|[name data] items IH]; cbn [check_machines]; [discriminate|].
  destruct (py_in "Initial_state" data) as [[|]|e'] eqn:Hin; cbn [rbind negb].
  - destruct (py_getitem data "Initial_state") as [v|e'] eqn:Hget; cbn [rbind].
    + destruct (truthy v); cbn [negb].
      * intros H. destruct (IH H) as [->|(n & dt & Hn & He)]; [now left|].
        right. exists n, dt. split; [now right | exact He].
      * intros [= <-]. right. exists name, data. split; [now left | now right].
    + intros [= <-]. destruct data as [a|l|m]; cbn in Hget.
      * injection Hget as <-. now left.
      * injection Hget as <-. now left.
      * cbn in Hin. destruct (lookup (AStr "Initial_state") m); discriminate.
  - intros [= <-]. right. exists name, data. split; [now left | now left].
  - intros [= <-]. destruct data as [[| | |s]|l|m]; cbn in Hin;
      try discriminate; injection Hin as <-; now left.
Qed.

Section Settings.

Variable fs : string -> option string.
Variable safe_load : string -> option pyval.

Local Abbreviation read_document := (read_document fs safe_load).
Local Abbreviation validate_settings_file := (validate_settings_file fs safe_load).
Local Abbreviation settings_read := (settings_read fs safe_load).

(** X11.  The settings validator returns its success pair exactly when the
    file holds a mapping of at least two machines, each a mapping with a
    non-empty [Initial_state]; it has then printed nothing. *)
Theorem validate_settings_file_accepts path :
  (exists note, outcome (validate_settings_file path) = Ok (Passed note)) <->
  exists d,
    read_document path = Ok (PDict d) /\ 2 <= List.length d /\ forallb ready d = true.
Proof.
  rewrite validate_settings_file_run. split.
  - intros (note & H).
    destruct (read_document path) as [content|e]; [|discriminate].
    unfold settings_checks in H.
    destruct content as [[| | |s]|l|d]; cbn [py_len py_items rbind] in H;
      try discriminate.
    + destruct (Nat.ltb _ 2); discriminate.
    + destruct (Nat.ltb _ 2); discriminate.
    + exists d. split; [reflexivity|].
      destruct (Nat.ltb_spec (List.length d) 2); [discriminate|]. split; [assumption|].
      apply check_machines_ok.
      destruct (check_machines d) as [[]|[m|le]]; try discriminate; reflexivity.
  - intros (d & -> & Hlen & Hready). exists "Settings file is valid.".
    unfold settings_checks. cbn [py_len py_items rbind].
    destruct (Nat.ltb_spec (List.length d) 2); [lia|].
    rewrite (check_machines_ready d Hready). reflexivity.
Qed.



Lemma strings_of_spelled s :
  strings_of (chars s) = Ok (spelled s).
Proof.
  unfold chars, spelled. induction (list_ascii_of_string s) as [|c l IH];
    cbn; [reflexivity | now rewrite IH].
Qed.

(** X14.  An [Initial_state] given as a plain string instead of a list is
    accepted by the validator when it is not empty, and the projector then
    joins its characters: the cell reads them one by one, separated by
    [", "]. *)
Theorem string_initial_state_is_spelled name data s rest t :
  initial_state_of data = Some (PStr s) ->
  (ready (AStr name, data) = true <-> s <> "")
  /\ settings_rows ((AStr name, data) :: rest) t =
     settings_rows rest
       (Table (columns t) (rows t ++ [[[Lit name]; [Lit (String.concat ", " (spelled s))]]])).
Proof.
  intros Hinit. split.
  - unfold ready. cbn [snd]. rewrite Hinit. cbn [truthy].
    destruct (String.eqb_spec s ""); cbn; split; congruence.
  - unfold initial_state_of in Hinit. destruct data as [a|l|m]; try discriminate.
    cbn [settings_rows py_getitem]. rewrite Hinit. cbn [rbind].
    unfold py_join. cbn [py_iter rbind]. unfold join_list. rewrite strings_of_spelled.
    reflexivity.
Qed.

(** X15.  The settings validator only asks that [Initial_state] be non-empty,
    not that it hold strings: a document whose machines all pass validation
    but in which a machine lists a label that is not a string makes the
    projector raise [TypeError] after the heading, with no table printed. *)
Theorem validated_settings_may_not_print path d pre rows_of name data labels post :
  read_document path = Ok (PDict d) ->
  2 <= List.length d ->
  forallb ready d = true ->
  d = pre ++ (name, data) :: post ->
  Forall2 (fun entry nl => printable_machine entry (fst nl) (snd nl)) pre rows_of ->
  initial_state_of data = Some (PList labels) ->
  existsb (fun v => negb (is_str v)) labels = true ->
  validate_settings_file path = (Ok (Passed "Settings file is valid."), [Open path])
  /\ settings_read path =
       (Raise (LibError TypeError), [Open path; Print settings_heading]).
Proof.
  intros Hread Hlen Hready Hd Hpre Hinit Hbad. split.
  - rewrite validate_settings_file_run, Hread. unfold settings_checks.
    cbn [py_len py_items rbind]. destruct (Nat.ltb_spec (List.length d) 2); [lia|].
    rewrite (check_machines_ready d Hready). reflexivity.
  - rewrite settings_read_run, Hread. cbn [py_items]. rewrite Hd.
    assert (Hrows : forall t, settings_rows (pre ++ (name, data) :: post) t
                              = Raise (LibError TypeError)).
    { clear Hd. induction Hpre as [|[n dt] [n' ls] pre rows_of [Hn Hl] _ IH]; intros t.
      - cbn [app settings_rows]. unfold initial_state_of in Hinit.
        destruct data as [a|l|m]; try discriminate. cbn [py_getitem]. rewrite Hinit.
        cbn [rbind]. unfold py_join. cbn [py_iter rbind]. unfold join_list.
        rewrite (strings_of_not_string labels Hbad). reflexivity.
      - cbn [app settings_rows]. cbn [fst snd] in *. subst n.
        unfold initial_state_of in Hl. destruct dt as [a|l|m]; try discriminate.
        cbn [py_getitem]. rewrite Hl. cbn [rbind]. unfold py_join. cbn [py_iter rbind].
        unfold join_list. rewrite strings_of_map. cbn [rbind]. unfold add_row.
        cbn [renderables renderable rbind]. apply IH. }
    rewrite Hrows. reflexivity.
Qed.

End Settings.

(** *** Whole runs *)


Section WholeRuns.

Variable fs : string -> option string.
Variable safe_load : string -> option pyval.

Local Abbreviation read_document := (read_document fs safe_load).
Local Abbreviation validate_protocol_file := (validate_protocol_file fs safe_load).
Local Abbreviation validate_settings_file := (validate_settings_file fs safe_load).
Local Abbreviation protocol_read := (protocol_read fs safe_load).
Local Abbreviation settings_read := (settings_read fs safe_load).
Local Abbreviation main := (main fs safe_load).


(** X17.  [main] opens no file but the two it was given, the protocol file
    first, each at most twice, always in the order protocol, settings,
    protocol, settings; and it prints at most two tables. *)
Theorem main_opens_only_its_files p s :
  (exists n, n <= 4 /\ opened (output (main p s)) = firstn n [p; s; p; s])
  /\ List.length (tables (output (main p s))) <= 2.
Proof.
  rewrite main_run.
  destruct (validate_protocol_file_shape fs safe_load p) as (b & tp & -> & Hop & Htp).
  destruct (validate_settings_file_shape fs safe_load s) as (r & ts & -> & Hos & Hts).
  destruct (precheck p s) as [[]|e]; [|split; [exists 0; split; [lia | reflexivity] | cbn; lia]].
  destruct b.
  2:{ split; [exists 1; split; [lia|] | ]; cbn; rewrite ?Hop, ?Htp; [reflexivity | cbn; lia]. }
  destruct r as [[note|]|e].
  2:{ split; [exists 2; split; [lia|] | ];
        repeat (progress (cbn; rewrite ?opened_app, ?tables_app, ?Hop, ?Hos, ?Htp, ?Hts));
        [reflexivity | cbn; lia]. }
  2:{ split; [exists 2; split; [lia|] | ];
        repeat (progress (cbn; rewrite ?opened_app, ?tables_app, ?Hop, ?Hos, ?Htp, ?Hts));
        [reflexivity | cbn; lia]. }
  rewrite protocol_read_run, settings_read_run.
  destruct (read_document p) as [cp|e].
  2:{ split; [exists 3; split; [lia|] | ];
        repeat (progress (cbn; rewrite ?opened_app, ?tables_app, ?Hop, ?Hos, ?Htp, ?Hts));
        [reflexivity | cbn; lia]. }
  destruct (py_get cp "protocol_name" (PList [])) as [name|e].
  2:{ split; [exists 3; split; [lia|] | ];
        repeat (progress (cbn; rewrite ?opened_app, ?tables_app, ?Hop, ?Hos, ?Htp, ?Hts));
        [reflexivity | cbn; lia]. }
  destruct (protocol_table cp) as [pt|e].
  2:{ split; [exists 3; split; [lia|] | ];
        repeat (progress (cbn; rewrite ?opened_app, ?tables_app, ?Hop, ?Hos, ?Htp, ?Hts));
        [reflexivity | cbn; lia]. }
  destruct (read_document s) as [cs|e];
    [destruct (py_items cs) as [items|e];
     [destruct (settings_rows items _) as [st|e]|]|];
    (split; [exists 4; split; [lia|] | ]);
    repeat (progress (cbn; rewrite ?opened_app, ?tables_app, ?Hop, ?Hos, ?Htp, ?Hts));
    try reflexivity; cbn; lia.
Qed.

(** X18.  [main] opens a file exactly when the two paths differ and both end
    in [.yaml] or [.yml]; the first file it opens is then the protocol
    file. *)
Theorem main_opens_iff_precheck p s :
  (p <> s /\ ends_in_yaml p /\ ends_in_yaml s) <->
  exists rest, opened (output (main p s)) = p :: rest.
Proof.
  rewrite <- precheck_ok, main_run.
  destruct (validate_protocol_file_shape fs safe_load p) as (b & tp & -> & Hop & Htp).
  destruct (precheck p s) as [[]|e].
  - split; [intros _ | reflexivity].
    destruct b; [|exists []; cbn; now rewrite Hop].
    destruct (validate_settings_file s) as [[[note|]|e] ts];
      [destruct (protocol_read p) as [[[]|e] tr];
       [destruct (settings_read s) as [[[]|e] tw]|]| |];
      cbn; eauto.
  - split; [discriminate | intros (rest & H); discriminate].
Qed.

End WholeRuns.

(** *** Faulty transitions and documents that are not mappings *)

Section Faults.

Variable fs : string -> option string.
Variable safe_load : string -> option pyval.

Local Abbreviation read_document := (read_document fs safe_load).
Local Abbreviation validate_protocol_file := (validate_protocol_file fs safe_load).
Local Abbreviation validate_settings_file := (validate_settings_file fs safe_load).


(** X20.  A settings document that is a sequence or a string, not a mapping:
    with fewer than two items (or characters) the validator answers with the
    two-machines message, as for a mapping; with two or more, asking for its
    items raises [AttributeError], which leaves the function. *)
Theorem settings_not_a_mapping path content n :
  read_document path = Ok content ->
  is_mapping content = false ->
  py_len content = Ok n ->
  (n < 2 ->
   validate_settings_file path =
     (Ok Failed, [Open path; Print (settings_error (ValueError too_few_machines))]))
  /\ (2 <= n ->
      validate_settings_file path = (Raise (LibError AttributeError), [Open path])).
Proof.
  intros Hread Hc Hn. rewrite validate_settings_file_run, Hread.
  unfold settings_checks. rewrite Hn. cbn [rbind]. split; intros H.
  - destruct (Nat.ltb_spec n 2); [reflexivity | lia].
  - destruct (Nat.ltb_spec n 2); [lia|].
    destruct content as [a|l|d]; try discriminate; reflexivity.
Qed.

End Faults.

(** *** The further properties on concrete documents *)

Section OnFixtures.

Local Abbreviation every := Fixture.fs.
Local Abbreviation holding := Fixture.holding.

Lemma validate_protocol_file_accepts_witness :
  exists d,
    Main.read_document Sample.fs Sample.safe_load "pingpong.yaml" = Ok (PDict d)
    /\ well_formed_protocol d.
Proof.
  apply (proj1 (validate_protocol_file_accepts Sample.fs Sample.safe_load "pingpong.yaml")).
  reflexivity.
Defined.

Lemma duplicate_states_reported_witness :
  validate_protocol_file every (holding (PDict Fixture.one_and_true)) "p.yaml" =
    (Ok false, [Open "p.yaml"; Print (error_line [Lit "Duplicate states found"])]).
Proof.
  apply (proj1 (duplicate_states_reported every (holding (PDict Fixture.one_and_true))
                  "p.yaml" Fixture.one_and_true [AInt 1; ABool true] [PStr "anything"]
                  eq_refl eq_refl eq_refl eq_refl ltac:(discriminate))).
  exists [], (AInt 1), [], (ABool true), []. split; reflexivity.
Defined.

Lemma unhashable_state_is_a_reading_error_witness :
  validate_protocol_file every (holding (PDict Fixture.nested_state)) "p.yaml" =
    (Ok false, [Open "p.yaml"; Print (reading_error (LibError TypeError))]).
Proof.
  apply (unhashable_state_is_a_reading_error every (holding (PDict Fixture.nested_state))
           "p.yaml" Fixture.nested_state [PList [PStr "A"]] [PStr "anything"]
           eq_refl eq_refl eq_refl eq_refl); [discriminate | reflexivity].
Defined.


Lemma protocol_table_rows_witness :
  protocol_table (PDict Fixture.two_dead) =
  Ok (Table ["State"; "Event"; "Transition"]
        [[[Lit "A"]; [Lit "go"]; [Lit "("; Val (PStr "A"); Lit " -> "; Val (PStr "B"); Lit ")"]];
         [[Lit "B"]; [Lit "No transitions"]; [Lit "No event"]];
         [[Lit "C"]; [Lit "No transitions"]; [Lit "No event"]]]).
Proof.
  exact (protocol_table_rows Fixture.two_dead [PStr "A"; PStr "B"; PStr "C"]
           [Fixture.arrow (AStr "A") (AStr "B") (PStr "go")]
           eq_refl eq_refl eq_refl eq_refl eq_refl).
Defined.




Lemma validate_settings_file_accepts_witness :
  exists d,
    Main.read_document Sample.fs Sample.safe_load "machines.yml" = Ok (PDict d)
    /\ 2 <= List.length d /\ forallb ready d = true.
Proof.
  apply (proj1 (validate_settings_file_accepts Sample.fs Sample.safe_load "machines.yml")).
  exists "Settings file is valid.". reflexivity.
Defined.


Lemma string_initial_state_is_spelled_witness :
  ready (AStr "m", Fixture.idle) = true
  /\ settings_rows [(AStr "m", Fixture.idle)] (new_table settings_columns) =
     Ok (Table settings_columns [[[Lit "m"]; [Lit "i, d, l, e"]]]).
Proof.
  destruct (string_initial_state_is_spelled "m" Fixture.idle "idle" []
              (new_table settings_columns) eq_refl) as [Hready Hrows].
  split; [apply Hready; discriminate | exact Hrows].
Defined.

Lemma validated_settings_may_not_print_witness :
  validate_settings_file every (holding (PDict Fixture.numbered)) "s.yml" =
    (Ok (Passed "Settings file is valid."), [Open "s.yml"])
  /\ settings_read every (holding (PDict Fixture.numbered)) "s.yml" =
       (Raise (LibError TypeError), [Open "s.yml"; Print settings_heading]).
Proof.
  refine (validated_settings_may_not_print every (holding (PDict Fixture.numbered)) "s.yml"
            Fixture.numbered
            [(AStr "m1", PDict [(AStr "Initial_state", PList [PStr "A"])])]
            [("m1", ["A"])] (AStr "m2")
            (PDict [(AStr "Initial_state", PList [PAtom (AInt 1)])])
            [PAtom (AInt 1)] [] eq_refl _ eq_refl eq_refl _ eq_refl eq_refl).
  - cbn. lia.
  - repeat constructor.
Defined.


Lemma main_opens_iff_precheck_witness :
  exists rest,
    opened (output (main Sample.fs Sample.safe_load "pingpong.yaml" "machines.yml"))
    = "pingpong.yaml" :: rest.
Proof.
  apply (proj1 (main_opens_iff_precheck Sample.fs Sample.safe_load
                  "pingpong.yaml" "machines.yml")).
  split; [discriminate|]. split.
  - exists "pingpong". now left.
  - exists "machines". now right.
Defined.


Lemma settings_not_a_mapping_witness :
  validate_settings_file every (holding (PList [])) "s.yml" =
    (Ok Failed, [Open "s.yml"; Print (settings_error (ValueError too_few_machines))])
  /\ validate_settings_file every (holding (PStr "ab")) "s.yml" =
       (Raise (LibError AttributeError), [Open "s.yml"]).
Proof.
  split.
  - apply (proj1 (settings_not_a_mapping every (holding (PList [])) "s.yml" (PList []) 0
                    eq_refl eq_refl eq_refl)). lia.
  - apply (proj2 (settings_not_a_mapping every (holding (PStr "ab")) "s.yml" (PStr "ab") 2
                    eq_refl eq_refl eq_refl)). lia.
Defined.

End OnFixtures.

(* ===================================================================== *)
(** ** When the console or the loader raises *)
(* ===================================================================== *)

(** *** The checks, one line at a time *)

Section Console.

Variable console : event -> option lib_error.

Lemma console_print_accepted msg :
  console (Print msg) = None -> Strict.console_print console msg = (Ok tt, [Print msg]).
Proof. unfold Strict.console_print, Strict.show. now intros ->. Qed.

Lemma console_print_refused msg error :
  console (Print msg) = Some error ->
  Strict.console_print console msg = (Raise (LibError error), []).
Proof. unfold Strict.console_print, Strict.show. now intros ->. Qed.

Lemma console_print_then {A B} msg (a : A) (k : A -> M B) :
  bind (bind (Strict.console_print console msg) (fun _ => ret a)) k =
  bind (Strict.console_print console msg) (fun _ => k a).
Proof.
  unfold Strict.console_print, Strict.show. destruct (console (Print msg)); cbn.
  - reflexivity.
  - destruct (k a). reflexivity.
Qed.

(** The loops and the checks of [Strict] hand the console the line that
    those of [Main] print. *)
Lemma check_required_keys_console keys content :
  Strict.check_required_keys console keys content =
  match check_required_keys keys content with
  | (Ok (Some false), [Print msg]) =>
      bind (Strict.console_print console msg) (fun _ => ret (Some false))
  | m => m
  end.
Proof.
  induction keys as [|key keys IH];
    cbn [Strict.check_required_keys check_required_keys]; [reflexivity|].
  destruct (py_in key content) as [[|]|e]; run_step; cbn [negb].
  - exact IH.
  - rewrite bind_print_ret. reflexivity.
  - reflexivity.
Qed.

Lemma check_transitions_console ts state_set :
  Strict.check_transitions console ts state_set =
  match check_transitions ts state_set with
  | (Ok (Some false), [Print msg]) =>
      bind (Strict.console_print console msg) (fun _ => ret (Some false))
  | m => m
  end.
Proof.
  induction ts as [|x ts IH];
    cbn [Strict.check_transitions check_transitions]; [reflexivity|].
  destruct (all_in _ x) as [[|]|e]; run_step; cbn [negb];
    [| rewrite bind_print_ret; reflexivity | reflexivity].
  destruct (outside_states x state_set) as [[|]|e]; run_step;
    [rewrite bind_print_ret; reflexivity | | reflexivity].
  destruct (py_getitem x "event") as [event|e]; run_step; [|reflexivity].
  destruct (negb (is_str event) || negb (truthy event));
    [rewrite bind_print_ret; reflexivity | exact IH].
Qed.

Lemma protocol_checks_console content :
  Strict.protocol_checks console content =
  match protocol_checks content with
  | (Ok false, [Print msg]) =>
      bind (Strict.console_print console msg) (fun _ => ret false)
  | m => m
  end.
Proof.
  unfold Strict.protocol_checks, protocol_checks.
  rewrite check_required_keys_console.
  pose proof (check_required_keys_loop required_keys content) as Hkeys.
  destruct (check_required_keys required_keys content) as [[[b|]|e] t]; cbn in Hkeys.
  - destruct Hkeys as (-> & msg & ->). rewrite console_print_then. reflexivity.
  - subst t. run_step.
    destruct (py_getitem content "states") as [states|e]; run_step; [|reflexivity].
    destruct (negb (is_list states) || _); [rewrite bind_print_ret; reflexivity|].
    destruct (py_getitem content "transitions") as [transitions|e]; run_step;
      [|reflexivity].
    destruct (negb (is_list transitions) || _); [rewrite bind_print_ret; reflexivity|].
    destruct (py_set (list_items states)) as [distinct|e]; run_step; [|reflexivity].
    destruct (negb _); [rewrite bind_print_ret; reflexivity|].
    destruct (state_with_no_transitions _ _) as [found|e]; run_step; [|reflexivity].
    destruct (nonempty found).
    + destruct (join_list ", " found) as [names|e]; run_step; [|reflexivity].
      rewrite bind_print_ret. reflexivity.
    + rewrite check_transitions_console.
      pose proof (check_transitions_loop (list_items transitions) distinct) as Hts.
      destruct (check_transitions _ _) as [[[b|]|e] t]; cbn in Hts.
      * destruct Hts as (-> & msg & ->). rewrite console_print_then. reflexivity.
      * subst t. reflexivity.
      * subst t. reflexivity.
  - subst t. reflexivity.
Qed.

End Console.

(** *** The line of each check of the protocol validator *)












(** *** The validators, the projector and the driver *)

Lemma precheck_raises p s e :
  precheck p s = Raise e ->
  e = ValueError (if String.eqb p s then same_file
                  else bad_extension (if yaml_suffix p then s else p)).
Proof.
  unfold precheck. destruct (String.eqb p s); [now intros [= <-]|].
  cbn. destruct (yaml_suffix p); cbn; [|now intros [= <-]].
  destruct (yaml_suffix s); cbn; [discriminate | now intros [= <-]].
Qed.

Section Environment.

Variable fs : string -> option string.
Variable safe_load : string -> result pyval.
Variable console : event -> option lib_error.

Local Abbreviation read_document := (Strict.read_document fs safe_load).
Local Abbreviation protocol_body := (Strict.protocol_body fs safe_load console).
Local Abbreviation validate_protocol_file :=
  (Strict.validate_protocol_file fs safe_load console).
Local Abbreviation validate_settings_file :=
  (Strict.validate_settings_file fs safe_load console).
Local Abbreviation protocol_read := (Strict.protocol_read fs safe_load console).
Local Abbreviation main_body := (Strict.main_body fs safe_load console).
Local Abbreviation main := (Strict.main fs safe_load console).

Lemma protocol_body_run path :
  protocol_body path =
  match read_document path with
  | Ok content =>
      let (r, t) := Strict.protocol_checks console content in (r, Open path :: t)
  | Raise e => (Raise e, [Open path])
  end.
Proof.
  unfold Strict.protocol_body, Strict.load. cbn.
  destruct (Strict.read_document fs safe_load path) as [content|e]; cbn; [|reflexivity].
  destruct (Strict.protocol_checks console content). reflexivity.
Qed.

(** The [except] clause of the protocol validator: the error of the body is
    printed, unless the console raises on that line. *)
Lemma validate_protocol_file_handler path e t :
  protocol_body path = (Raise e, t) ->
  validate_protocol_file path =
  match console (Print (reading_error e)) with
  | None => (Ok false, t ++ [Print (reading_error e)])
  | Some error => (Raise (LibError error), t)
  end.
Proof.
  intros H. unfold Strict.validate_protocol_file, try_except. rewrite H.
  unfold Strict.console_print, Strict.show.
  destruct (console (Print (reading_error e))); cbn; rewrite ?app_nil_r; reflexivity.
Qed.

Lemma validate_protocol_file_returned path b t :
  protocol_body path = (Ok b, t) -> validate_protocol_file path = (Ok b, t).
Proof. intros H. unfold Strict.validate_protocol_file, try_except. now rewrite H. Qed.

Lemma validate_protocol_file_reports path content line :
  read_document path = Ok content ->
  protocol_checks content = (Ok false, [Print line]) ->
  console (Print line) = None ->
  validate_protocol_file path = (Ok false, [Open path; Print line]).
Proof.
  intros Hread Hplain Hacc. apply validate_protocol_file_returned.
  rewrite protocol_body_run, Hread, protocol_checks_console, Hplain.
  rewrite (console_print_accepted console line Hacc). reflexivity.
Qed.

Lemma validate_protocol_file_passes path content :
  read_document path = Ok content ->
  protocol_checks content = (Ok true, []) ->
  validate_protocol_file path = (Ok true, [Open path]).
Proof.
  intros Hread Hplain. apply validate_protocol_file_returned.
  rewrite protocol_body_run, Hread, protocol_checks_console, Hplain. reflexivity.
Qed.



(** C5, as the code has it.  An error raised while the file is opened,
    parsed or checked reaches the [except] clause, which hands the console
    one line made of a fixed heading and the text of the error.  When the
    console accepts the line the validator returns failure; when the console
    raises on it, which Rich does for a closing tag with no opening tag in
    the text of the error, that exception leaves the validator.  So it does
    on a document with a state named [[/x]] that no transition leaves: the
    line of the fifth check is refused, and so is the line of the [except]
    clause, which quotes the tag again. *)
Theorem validate_protocol_file_handler_raises path :
  (fs path = None ->
   protocol_body path = (Raise (LibError (OSError path)), [Open path]))
  /\ (forall contents e,
        fs path = Some contents -> safe_load contents = Raise e ->
        protocol_body path = (Raise e, [Open path]))
  /\ (forall e t,
        protocol_body path = (Raise e, t) ->
        let line := Lit "[bold red]Error reading protocol file:[/bold red] " :: str_exn e in
        (console (Print line) = None ->
         validate_protocol_file path = (Ok false, t ++ [Print line]))
        /\ (forall error,
              console (Print line) = Some error ->
              validate_protocol_file path = (Raise (LibError error), t)))
  /\ (Markup.raises_on_closing_tags console ->
      read_document path = Ok (PDict Fixture.closing_tag_state) ->
      validate_protocol_file path =
        (Raise (LibError (MarkupError
           "closing tag '[/x]' at position 63 doesn't match any open tag")),
         [Open path])).
Proof.
  split; [|split; [|split]].
  - intros H. rewrite protocol_body_run. unfold Strict.read_document. now rewrite H.
  - intros contents e H1 H2. rewrite protocol_body_run. unfold Strict.read_document.
    now rewrite H1, H2.
  - intros e t H line. subst line.
    rewrite (validate_protocol_file_handler path e t H).
    fold (reading_error e). split.
    + now intros ->.
    + now intros error ->.
  - intros Hrich Hread.
    assert (Hbody : protocol_body path =
              (Raise (LibError (MarkupError
                 "closing tag '[/x]' at position 56 doesn't match any open tag")),
               [Open path])).
    { rewrite protocol_body_run, Hread, protocol_checks_console.
      assert (Hplain : protocol_checks (PDict Fixture.closing_tag_state) =
                (Ok false,
                 [Print (error_line [Lit "States with no transitions: ";
                                     Val (PStr "[/x]")])]))
        by (vm_compute; reflexivity).
      rewrite Hplain.
      rewrite (console_print_refused console _ _
                 (Hrich (error_line [Lit "States with no transitions: ";
                                     Val (PStr "[/x]")]) _ _ eq_refl eq_refl)).
      reflexivity. }
    rewrite (validate_protocol_file_handler path _ _ Hbody).
    rewrite (Hrich (reading_error (LibError (MarkupError
               "closing tag '[/x]' at position 56 doesn't match any open tag")))
               _ _ eq_refl eq_refl).
    reflexivity.
Qed.

Lemma main_handler p s e t :
  main_body p s = (Raise e, t) ->
  main p s =
  match console (Print (driver_error e)) with
  | None => (Ok tt, t ++ [Print (driver_error e)])
  | Some error => (Raise (LibError error), t)
  end.
Proof.
  intros H. unfold Strict.main, try_except. rewrite H.
  unfold Strict.console_print, Strict.show.
  destruct e; destruct (console _); cbn; rewrite ?app_nil_r; reflexivity.
Qed.

Lemma main_returned p s t : main_body p s = (Ok tt, t) -> main p s = (Ok tt, t).
Proof. intros H. unfold Strict.main, try_except. now rewrite H. Qed.

Lemma main_body_precheck p s e :
  precheck p s = Raise e -> main_body p s = (Raise e, []).
Proof. intros H. unfold Strict.main_body. rewrite H. reflexivity. Qed.

(** C6, as the code has it.  When the two paths are equal, or one of them
    does not end in [.yaml] or [.yml], the only thing the driver does is to
    hand the console the line of that precondition: the same-file line, or
    the line that quotes the first of the two paths with a wrong ending.  It
    opens no file and prints no table.  When the console accepts the line, it
    is printed and the driver returns; when the console raises on it, nothing
    is printed and the exception leaves the driver.  Rich raises when the
    path that the line quotes holds a closing tag, as [machines[/b].txt]
    does. *)
Theorem precheck_failure_line :
  (forall p s,
     let reports line :=
       (console (Print line) = None -> main p s = (Ok tt, [Print line]))
       /\ (forall error,
             console (Print line) = Some error ->
             main p s = (Raise (LibError error), []))
       /\ opened (output (main p s)) = []
       /\ tables (output (main p s)) = [] in
     let bad_extension path :=
       [Lit "[bold red]Error[/bold red]: "; Lit "The file '"; Val (PStr path);
        Lit "' is not a valid YAML file (must have .yaml or .yml extension)."] in
     (p = s ->
      reports [Lit "[bold red]Error[/bold red]: ";
               Lit "Protocol file and settings file cannot be the same."])
     /\ (p <> s -> ~ ends_in_yaml p -> reports (bad_extension p))
     /\ (p <> s -> ends_in_yaml p -> ~ ends_in_yaml s -> reports (bad_extension s)))
  /\ (Markup.raises_on_closing_tags console ->
      main "protocol.yaml" "machines[/b].txt" =
        (Raise (LibError (MarkupError
           "closing tag '[/b]' at position 46 doesn't match any open tag")),
         [])).
Proof.
  split.
  - intros p s reports bad.
    assert (Hrun : forall msg,
              precheck p s = Raise (ValueError msg) ->
              reports (Lit "[bold red]Error[/bold red]: " :: msg)).
    { intros msg Hpre. subst reports. cbn beta.
      pose proof (main_handler p s _ _ (main_body_precheck p s _ Hpre)) as Hrun.
      change (driver_error (ValueError msg))
        with (Lit "[bold red]Error[/bold red]: " :: msg) in Hrun.
      rewrite Hrun.
      destruct (console (Print (Lit "[bold red]Error[/bold red]: " :: msg)))
        as [error|]; repeat split; try discriminate.
      now intros error' [= <-]. }
    split; [|split].
    + intros ->. apply Hrun. unfold precheck. now rewrite String.eqb_refl.
    + intros Hne Hp. apply (Hrun (Main.bad_extension p)). unfold precheck.
      destruct (String.eqb_spec p s) as [H|_]; [now elim Hne|]. cbn.
      destruct (yaml_suffix p) eqn:Hsuffix; [|reflexivity].
      apply yaml_suffix_spec in Hsuffix. now elim Hp.
    + intros Hne Hp Hs. apply (Hrun (Main.bad_extension s)). unfold precheck.
      destruct (String.eqb_spec p s) as [H|_]; [now elim Hne|]. cbn.
      apply yaml_suffix_spec in Hp. rewrite Hp. cbn.
      destruct (yaml_suffix s) eqn:Hsuffix; [|reflexivity].
      apply yaml_suffix_spec in Hsuffix. now elim Hs.
  - intros Hrich.
    rewrite (main_handler "protocol.yaml" "machines[/b].txt" _ _
               (main_body_precheck "protocol.yaml" "machines[/b].txt" _ eq_refl)).
    rewrite (Hrich (driver_error (ValueError (Main.bad_extension "machines[/b].txt")))
               _ _ eq_refl eq_refl).
    reflexivity.
Qed.

(** C8, as the code has it.  [main] returns, and the process ends with
    status 0, when the body of its [try] returns, as it does when a validator
    returns failure, with the output of the validators alone; and when the
    body raises and the console accepts the line of the [except] clause, a
    fixed heading and the text of the error.  When the console raises on that
    line the exception leaves [main] and the process ends with status 1.
    Rich raises when the text holds a closing tag: with the protocol path
    [a[/b].txt] the precheck fails, nothing is printed and the status is 1. *)
Theorem main_handler_raises :
  (forall p s t,
     main_body p s = (Ok tt, t) ->
     main p s = (Ok tt, t) /\ exit_status (main p s) = 0%Z)
  /\ (forall p s t,
        precheck p s = Ok tt ->
        validate_protocol_file p = (Ok false, t) ->
        main p s = (Ok tt, t) /\ exit_status (main p s) = 0%Z)
  /\ (forall p s t t',
        precheck p s = Ok tt ->
        validate_protocol_file p = (Ok true, t) ->
        validate_settings_file s = (Ok Failed, t') ->
        main p s = (Ok tt, t ++ t') /\ exit_status (main p s) = 0%Z)
  /\ (forall p s e t,
        main_body p s = (Raise e, t) ->
        let line := Lit "[bold red]Error[/bold red]: " :: str_exn e in
        (console (Print line) = None ->
         main p s = (Ok tt, t ++ [Print line]) /\ exit_status (main p s) = 0%Z)
        /\ (forall error,
              console (Print line) = Some error ->
              main p s = (Raise (LibError error), t) /\ exit_status (main p s) = 1%Z))
  /\ (Markup.raises_on_closing_tags console ->
      forall s,
        s <> "a[/b].txt" ->
        main "a[/b].txt" s =
          (Raise (LibError (MarkupError
             "closing tag '[/b]' at position 39 doesn't match any open tag")),
           [])
        /\ exit_status (main "a[/b].txt" s) = 1%Z).
Proof.
  split; [|split; [|split; [|split]]].
  - intros p s t H. rewrite (main_returned p s t H). split; reflexivity.
  - intros p s t Hpre Hvalid.
    assert (H : main_body p s = (Ok tt, t)).
    { unfold Strict.main_body. rewrite Hpre, Hvalid. cbn. now rewrite ?app_nil_r. }
    rewrite (main_returned p s t H). split; reflexivity.
  - intros p s t t' Hpre Hvalid Hsettings.
    assert (H : main_body p s = (Ok tt, t ++ t')).
    { unfold Strict.main_body. rewrite Hpre, Hvalid. cbn. rewrite Hsettings. cbn.
      now rewrite ?app_nil_r. }
    rewrite (main_returned p s _ H). split; reflexivity.
  - intros p s e t H line. subst line. fold (driver_error e).
    rewrite (main_handler p s e t H). split.
    + intros ->. split; reflexivity.
    + intros error ->. split; reflexivity.
  - intros Hrich s Hs.
    assert (Hpre : precheck "a[/b].txt" s = Raise (ValueError (bad_extension "a[/b].txt"))).
    { unfold precheck. destruct (String.eqb_spec "a[/b].txt" s) as [H|_]; [|reflexivity].
      now elim Hs. }
    rewrite (main_handler "a[/b].txt" s _ _ (main_body_precheck _ _ _ Hpre)).
    rewrite (Hrich (driver_error (ValueError (bad_extension "a[/b].txt")))
               _ _ eq_refl eq_refl).
    split; reflexivity.
Qed.

Lemma settings_body_run path :
  Strict.settings_body fs safe_load path =
  match read_document path with
  | Ok content => (settings_checks content, [Open path])
  | Raise e => (Raise e, [Open path])
  end.
Proof.
  unfold Strict.settings_body, Strict.load. cbn.
  destruct (Strict.read_document fs safe_load path) as [content|e]; reflexivity.
Qed.

(** The [except ValueError] clause of the settings validator. *)
Lemma validate_settings_file_handler path msg t :
  Strict.settings_body fs safe_load path = (Raise (ValueError msg), t) ->
  validate_settings_file path =
  match console (Print (settings_error (ValueError msg))) with
  | None => (Ok Failed, t ++ [Print (settings_error (ValueError msg))])
  | Some error => (Raise (LibError error), t)
  end.
Proof.
  intros H. unfold Strict.validate_settings_file, try_except. rewrite H.
  unfold Strict.console_print, Strict.show.
  destruct (console _); cbn; rewrite ?app_nil_r; reflexivity.
Qed.

Lemma validate_settings_file_passed_on path le t :
  Strict.settings_body fs safe_load path = (Raise (LibError le), t) ->
  validate_settings_file path = (Raise (LibError le), t).
Proof. intros H. unfold Strict.validate_settings_file, try_except. now rewrite H. Qed.

Lemma validate_settings_file_returned path v t :
  Strict.settings_body fs safe_load path = (Ok v, t) ->
  validate_settings_file path = (Ok v, t).
Proof. intros H. unfold Strict.validate_settings_file, try_except. now rewrite H. Qed.

(** C7, as the code has it.  On a mapping: with fewer than two entries the
    settings validator answers with the two-machines line; with two or more,
    it stops at the first entry, in document order, that has no non-empty
    [Initial_state], and when that entry is a mapping and the entries before
    it are mappings it answers with a line naming that machine, one wording
    for a missing field and one for an empty one, whatever the later entries
    are; and it succeeds, printing nothing, when every entry is a mapping
    with a non-empty [Initial_state].  To answer with a line is to open the
    file, hand the line to the console and return failure, and nothing else;
    so the validator returns failure with the line alone when the console
    accepts the line. *)
Theorem validate_settings_file_first_machine path d :
  read_document path = Ok (PDict d) ->
  let reports body :=
    let line := Lit "[bold red]Error in settings files[/bold red]: " :: body in
    validate_settings_file path =
      bind (emit (Open path))
           (fun _ => bind (Strict.console_print console line) (fun _ => ret Failed))
    /\ (console (Print line) = None ->
        validate_settings_file path = (Ok Failed, [Open path; Print line])) in
  (List.length d < 2 ->
   reports [Lit "There must be at least two machines in the settings file."])
  /\ (2 <= List.length d ->
      forall pre name data post,
        d = pre ++ (name, PDict data) :: post ->
        forallb ready pre = true ->
        (lookup (AStr "Initial_state") data = None ->
         reports [Lit "Machine '"; Val (PAtom name);
                  Lit "' is missing an 'Initial_state'."])
        /\ (forall labels,
              lookup (AStr "Initial_state") data = Some labels ->
              truthy labels = false ->
              reports [Lit "Machine '"; Val (PAtom name);
                       Lit "' has no initial state defined."]))
  /\ (2 <= List.length d ->
      forallb ready d = true ->
      validate_settings_file path = (Ok (Passed "Settings file is valid."), [Open path])).
Proof.
  intros Hread reports. subst reports. cbn beta zeta.
  assert (Hline : forall msg,
            Strict.settings_body fs safe_load path = (Raise (ValueError msg), [Open path]) ->
            let line := Lit "[bold red]Error in settings files[/bold red]: " :: msg in
            validate_settings_file path =
              bind (emit (Open path))
                   (fun _ => bind (Strict.console_print console line)
                                  (fun _ => ret Failed))
            /\ (console (Print line) = None ->
                validate_settings_file path = (Ok Failed, [Open path; Print line]))).
  { intros msg Hbody line.
    rewrite (validate_settings_file_handler path msg _ Hbody).
    change (settings_error (ValueError msg)) with line.
    unfold Strict.console_print, Strict.show.
    destruct (console (Print line)); split; try reflexivity; discriminate. }
  pose proof (settings_body_run path) as Hbody. rewrite Hread in Hbody.
  unfold settings_checks in Hbody. cbn [py_len py_items rbind] in Hbody.
  split; [|split].
  - intros Hlt. destruct (Nat.ltb_spec (List.length d) 2); [|lia].
    exact (Hline _ Hbody).
  - intros Hge pre name data post Hd Hpre.
    destruct (Nat.ltb_spec (List.length d) 2); [lia|].
    split.
    + intros Hnone.
      assert (Hbad : ready (name, PDict data) = false).
      { unfold ready, initial_state_of. cbn [snd]. now rewrite Hnone. }
      rewrite Hd, (check_machines_first pre name data post Hpre Hbad), Hnone in Hbody.
      exact (Hline _ Hbody).
    + intros labels Hsome Hempty.
      assert (Hbad : ready (name, PDict data) = false).
      { unfold ready, initial_state_of. cbn [snd]. now rewrite Hsome. }
      rewrite Hd, (check_machines_first pre name data post Hpre Hbad), Hsome in Hbody.
      exact (Hline _ Hbody).
  - intros Hge Hall. destruct (Nat.ltb_spec (List.length d) 2); [lia|].
    rewrite (check_machines_ready d Hall) in Hbody.
    exact (validate_settings_file_returned path _ _ Hbody).
Qed.

(** The projector hands the console the heading and then the table. *)
Lemma protocol_read_hands path content name table :
  read_document path = Ok content ->
  py_get content "protocol_name" (PList []) = Ok name ->
  protocol_table content = Ok table ->
  protocol_read path =
  bind (emit (Open path))
       (fun _ => bind (Strict.console_print console [Lit "Protocol: "; Val name])
                      (fun _ => Strict.console_print_table console table)).
Proof.
  intros Hread Hname Htable.
  unfold Strict.protocol_read, Strict.load. cbn. rewrite Hread. cbn.
  rewrite Hname. cbn. unfold Strict.console_print, Strict.show.
  destruct (console (Print [Lit "Protocol: "; Val name])); cbn; [reflexivity|].
  rewrite Htable. cbn. unfold Strict.console_print_table, Strict.show.
  destruct (console (PrintTable table)); reflexivity.
Qed.

(** The projector prints the heading and the table when the console accepts
    both. *)
Lemma protocol_read_prints path content name table :
  read_document path = Ok content ->
  py_get content "protocol_name" (PList []) = Ok name ->
  protocol_table content = Ok table ->
  console (Print [Lit "Protocol: "; Val name]) = None ->
  console (PrintTable table) = None ->
  protocol_read path =
    (Ok tt, [Open path; Print [Lit "Protocol: "; Val name]; PrintTable table]).
Proof.
  intros Hread Hname Htable Hline Htab.
  unfold Strict.protocol_read, Strict.load. cbn. rewrite Hread. cbn.
  rewrite Hname. cbn. unfold Strict.console_print, Strict.show. rewrite Hline. cbn.
  rewrite Htable. cbn. unfold Strict.console_print_table, Strict.show. rewrite Htab.
  reflexivity.
Qed.

Lemma protocol_read_raises path content name e :
  read_document path = Ok content ->
  py_get content "protocol_name" (PList []) = Ok name ->
  protocol_table content = Raise e ->
  console (Print [Lit "Protocol: "; Val name]) = None ->
  protocol_read path = (Raise e, [Open path; Print [Lit "Protocol: "; Val name]]).
Proof.
  intros Hread Hname Htable Hline.
  unfold Strict.protocol_read, Strict.load. cbn. rewrite Hread. cbn.
  rewrite Hname. cbn. unfold Strict.console_print, Strict.show. rewrite Hline. cbn.
  rewrite Htable. reflexivity.
Qed.

(** C10, as the code has it.  Take a mapping whose states are strings or
    null and whose transitions are mappings in which every event that is
    present is a string.  For a state and a transition that leaves it and has
    no [event], the table the projector builds has, in the row of that state,
    the state under State and, under Event, the events of the transitions
    that leave the state, in their order, joined by [" | "], with ["N/A"] in
    the position of that transition.  The projector opens the file, hands the
    console the heading and then this table, and does nothing else; so it
    prints them when the console accepts them. *)
Theorem missing_event_in_printed_table path d states ts before state after pre t post :
  read_document path = Ok (PDict d) ->
  lookup (AStr "states") d = Some (PList states) ->
  lookup (AStr "transitions") d = Some (PList ts) ->
  forallb renderable_state states = true ->
  forallb is_mapping ts = true ->
  forallb string_event ts = true ->
  states = before ++ state :: after ->
  ts = pre ++ t :: post ->
  goes_from state t = true ->
  field "event" t = None ->
  let events l := map (fun x => label (event_label x)) (filter (goes_from state) l) in
  let heading := [Lit "Protocol: "; Val (field_or "protocol_name" (PList []) (PDict d))] in
  exists table row,
    protocol_table (PDict d) = Ok table
    /\ columns table = ["State"; "Event"; "Transition"]
    /\ nth_error (rows table) (List.length before) = Some row
    /\ nth_error row 0 = Some [Lit (label state)]
    /\ nth_error row 1
       = Some [Lit (String.concat " | " (events pre ++ "N/A" :: events post))]
    /\ nth_error (events pre ++ "N/A" :: events post) (List.length (events pre))
       = Some "N/A"
    /\ protocol_read path
       = bind (emit (Open path))
              (fun _ => bind (Strict.console_print console heading)
                             (fun _ => Strict.console_print_table console table))
    /\ (console (Print heading) = None ->
        console (PrintTable table) = None ->
        protocol_read path = (Ok tt, [Open path; Print heading; PrintTable table])).
Proof.
  intros Hread Hs Ht Hstates Hmap Hev Hsplit Hts Hgoes Hnone events heading.
  assert (Htable : protocol_table (PDict d)
                   = Ok (Table ["State"; "Event"; "Transition"]
                           (map (protocol_row ts) states))).
  { unfold protocol_table. cbn [py_get]. rewrite Hs, Ht. cbn [rbind py_iter].
    rewrite (protocol_rows_map ts states _ Hmap Hev Hstates). reflexivity. }
  assert (Hmatch : filter (goes_from state) ts
                   = filter (goes_from state) pre ++ t :: filter (goes_from state) post).
  { rewrite Hts, filter_app. cbn [filter]. now rewrite Hgoes. }
  assert (Hlabel : label (event_label t) = "N/A").
  { unfold event_label, field_or. now rewrite Hnone. }
  exists (Table ["State"; "Event"; "Transition"] (map (protocol_row ts) states)),
         (protocol_row ts state).
  assert (Hrow : protocol_row ts state
                 = [[Lit (label state)];
                    [Lit (String.concat " | " (events pre ++ "N/A" :: events post))];
                    join_text " | " (map arrow (filter (goes_from state) ts))]).
  { unfold protocol_row. rewrite Hmatch.
    assert (Hne : nonempty (filter (goes_from state) pre
                            ++ t :: filter (goes_from state) post) = true)
      by (destruct (filter (goes_from state) pre); reflexivity).
    rewrite Hne, map_app. cbn [map]. rewrite Hlabel. reflexivity. }
  assert (Hname : py_get (PDict d) "protocol_name" (PList [])
                  = Ok (field_or "protocol_name" (PList []) (PDict d))).
  { unfold field_or. cbn [py_get field].
    destruct (lookup (AStr "protocol_name") d); reflexivity. }
  split; [exact Htable|]. split; [reflexivity|].
  split; [|split; [|split; [|split; [|split]]]].
  - cbn [rows]. rewrite Hsplit, map_app, nth_error_app2; rewrite length_map; [|lia].
    rewrite Nat.sub_diag. reflexivity.
  - rewrite Hrow. reflexivity.
  - rewrite Hrow. reflexivity.
  - rewrite nth_error_app2, Nat.sub_diag by lia. reflexivity.
  - exact (protocol_read_hands path (PDict d) _ _ Hread Hname Htable).
  - intros Hline Htab.
    exact (protocol_read_prints path (PDict d) _ _ Hread Hname Htable Hline Htab).
Qed.

(** *** Documents of the expected types *)

Lemma check_required_keys_error_line keys content b msg :
  check_required_keys keys content = (Ok (Some b), [Print msg]) ->
  exists body, msg = Lit "[bold red]Error:[/bold red] " :: body.
Proof.
  induction keys as [|key keys IH]; cbn [check_required_keys]; [discriminate|].
  destruct (py_in key content) as [[|]|e]; run_step; cbn [negb];
    [exact IH | | discriminate].
  rewrite bind_print_ret. intros [= _ <-]. eexists. reflexivity.
Qed.

Lemma check_transitions_error_line ts state_set b msg :
  check_transitions ts state_set = (Ok (Some b), [Print msg]) ->
  exists body, msg = Lit "[bold red]Error:[/bold red] " :: body.
Proof.
  induction ts as [|x ts IH]; cbn [check_transitions]; [discriminate|].
  destruct (all_in _ x) as [[|]|e]; run_step; cbn [negb];
    [| rewrite bind_print_ret; intros [= _ <-]; eexists; reflexivity | discriminate].
  destruct (outside_states x state_set) as [[|]|e]; run_step;
    [rewrite bind_print_ret; intros [= _ <-]; eexists; reflexivity | | discriminate].
  destruct (py_getitem x "event") as [event|e]; run_step; [|discriminate].
  destruct (negb (is_str event) || negb (truthy event));
    [rewrite bind_print_ret; intros [= _ <-]; eexists; reflexivity | exact IH].
Qed.

(** Every line the checks print starts with the heading of a failed check. *)
Lemma protocol_checks_error_line content msg :
  protocol_checks content = (Ok false, [Print msg]) ->
  exists body, msg = Lit "[bold red]Error:[/bold red] " :: body.
Proof.
  unfold protocol_checks.
  pose proof (check_required_keys_loop required_keys content) as Hkeys.
  destruct (check_required_keys required_keys content) as [[[b|]|e] t] eqn:Hrun;
    cbn in Hkeys.
  - destruct Hkeys as (-> & msg0 & ->). cbn. intros [= <-].
    exact (check_required_keys_error_line _ _ _ _ Hrun).
  - subst t. run_step.
    destruct (py_getitem content "states") as [states|e]; run_step; [|discriminate].
    destruct (negb (is_list states) || _);
      [rewrite bind_print_ret; intros [= <-]; eexists; reflexivity|].
    destruct (py_getitem content "transitions") as [transitions|e]; run_step;
      [|discriminate].
    destruct (negb (is_list transitions) || _);
      [rewrite bind_print_ret; intros [= <-]; eexists; reflexivity|].
    destruct (py_set (list_items states)) as [distinct|e]; run_step; [|discriminate].
    destruct (negb _); [rewrite bind_print_ret; intros [= <-]; eexists; reflexivity|].
    destruct (state_with_no_transitions _ _) as [found|e]; run_step; [|discriminate].
    destruct (nonempty found).
    + destruct (join_list ", " found) as [names|e]; run_step; [|discriminate].
      rewrite bind_print_ret. intros [= <-]. eexists. reflexivity.
    + pose proof (check_transitions_loop (list_items transitions) distinct) as Hts.
      destruct (check_transitions _ _) as [[[b|]|e] t] eqn:Hct; cbn in Hts.
      * destruct Hts as (-> & msg0 & ->). cbn. intros [= <-].
        exact (check_transitions_error_line _ _ _ _ Hct).
      * subst t. discriminate.
      * subst t. discriminate.
  - discriminate.
Qed.

(** X2.  On a protocol mapping of the expected types (string states, mapping
    transitions with scalar [from] and [to]) no check raises: the validator
    accepts the document, or hands the console one line that starts with the
    heading of a failed check.  It returns failure with that line when the
    console accepts it.  The only way into the [except] clause is the console
    raising on that line. *)
Theorem typed_checks_raise_only_on_the_console path d :
  read_document path = Ok (PDict d) ->
  typed_protocol d ->
  validate_protocol_file path = (Ok true, [Open path])
  \/ exists body,
       let line := Lit "[bold red]Error:[/bold red] " :: body in
       (console (Print line) = None
        /\ validate_protocol_file path = (Ok false, [Open path; Print line]))
       \/ (exists error,
             console (Print line) = Some error
             /\ protocol_body path = (Raise (LibError error), [Open path])).
Proof.
  intros Hread Htyped.
  pose proof (protocol_checks_typed d Htyped) as Hok.
  pose proof (protocol_checks_verdict (PDict d)) as Hshape.
  destruct (protocol_checks (PDict d)) as [[[|]|e] t] eqn:Hplain; [| |discriminate];
    cbn in Hshape.
  - subst t. left. exact (validate_protocol_file_passes path _ Hread Hplain).
  - destruct Hshape as (msg & ->).
    destruct (protocol_checks_error_line _ _ Hplain) as (body & ->).
    right. exists body. cbn zeta.
    destruct (console (Print (Lit "[bold red]Error:[/bold red] " :: body)))
      as [error|] eqn:Hc.
    + right. exists error. split; [reflexivity|].
      rewrite protocol_body_run, Hread, protocol_checks_console, Hplain.
      rewrite (console_print_refused console _ _ Hc). reflexivity.
    + left. split; [reflexivity|].
      exact (validate_protocol_file_reports path _ _ Hread Hplain Hc).
Qed.

(** *** How the settings validator ends *)

(** X12.  Every run of the settings validator ends in one of four ways: the
    success pair with nothing printed; failure with exactly one line; the
    exception the console raises on that line; or an error other than
    [ValueError] that leaves the body of the [try], and the function, with
    nothing printed.  The line is a fixed heading followed by the message of
    a [ValueError], which is the one the loader raised, the two-machines
    message, or one of the two messages that name a machine of the
    document. *)
Theorem validate_settings_file_ends path :
  let failure msg := Lit "[bold red]Error in settings files[/bold red]: " :: msg in
  let raised msg :=
    (exists contents,
       fs path = Some contents /\ safe_load contents = Raise (ValueError msg))
    \/ (exists content,
          read_document path = Ok content
          /\ (msg = [Lit "There must be at least two machines in the settings file."]
              \/ exists d name data,
                   content = PDict d /\ In (name, data) d
                   /\ (msg = [Lit "Machine '"; Val (PAtom name);
                              Lit "' is missing an 'Initial_state'."]
                       \/ msg = [Lit "Machine '"; Val (PAtom name);
                                 Lit "' has no initial state defined."]))) in
  validate_settings_file path = (Ok (Passed "Settings file is valid."), [Open path])
  \/ (exists msg,
        raised msg
        /\ console (Print (failure msg)) = None
        /\ validate_settings_file path = (Ok Failed, [Open path; Print (failure msg)]))
  \/ (exists msg error,
        raised msg
        /\ console (Print (failure msg)) = Some error
        /\ validate_settings_file path = (Raise (LibError error), [Open path]))
  \/ (exists le,
        Strict.settings_body fs safe_load path = (Raise (LibError le), [Open path])
        /\ validate_settings_file path = (Raise (LibError le), [Open path])).
Proof.
  intros failure raised.
  assert (Hvalue : forall msg,
            raised msg ->
            Strict.settings_body fs safe_load path = (Raise (ValueError msg), [Open path]) ->
            (exists msg,
               raised msg
               /\ console (Print (failure msg)) = None
               /\ validate_settings_file path = (Ok Failed, [Open path; Print (failure msg)]))
            \/ (exists msg error,
                  raised msg
                  /\ console (Print (failure msg)) = Some error
                  /\ validate_settings_file path = (Raise (LibError error), [Open path]))).
  { intros msg Hmsg Hbody.
    pose proof (validate_settings_file_handler path msg _ Hbody) as Hrun.
    change (settings_error (ValueError msg)) with (failure msg) in Hrun.
    destruct (console (Print (failure msg))) as [error|] eqn:Hc.
    - right. exists msg, error. auto.
    - left. exists msg. auto. }
  assert (Hlib : forall le,
            Strict.settings_body fs safe_load path = (Raise (LibError le), [Open path]) ->
            exists le,
              Strict.settings_body fs safe_load path = (Raise (LibError le), [Open path])
              /\ validate_settings_file path = (Raise (LibError le), [Open path])).
  { intros le Hbody. exists le. split; [exact Hbody|].
    exact (validate_settings_file_passed_on path le _ Hbody). }
  pose proof (settings_body_run path) as Hbody.
  destruct (Strict.read_document fs safe_load path) as [content|e] eqn:Hread.
  2:{ destruct e as [msg|le].
      - right. apply or_assoc. left. apply (Hvalue msg); [|exact Hbody].
        left. unfold Strict.read_document in Hread.
        destruct (fs path) as [contents|]; [|discriminate]. eauto.
      - right; right; right. exact (Hlib le Hbody). }
  unfold settings_checks in Hbody.
  destruct (py_len content) as [n|e] eqn:Hlen; cbn [rbind] in Hbody.
  2:{ right; right; right.
      destruct content as [[| | |s]|l|d]; cbn in Hlen; try discriminate;
        injection Hlen as <-; exact (Hlib _ Hbody). }
  destruct (Nat.ltb n 2).
  { right. apply or_assoc. left. apply (Hvalue too_few_machines); [|exact Hbody].
    right. exists content. split; [reflexivity|]. left. reflexivity. }
  destruct content as [a|l|d]; cbn [py_items rbind] in Hbody;
    try (right; right; right; exact (Hlib _ Hbody)).
  destruct (check_machines d) as [[]|e] eqn:Hcm; cbn [rbind] in Hbody.
  - left. exact (validate_settings_file_returned path _ _ Hbody).
  - destruct (check_machines_raises d e Hcm) as [->|(name & data & Hin & [->| ->])].
    + right; right; right. exact (Hlib _ Hbody).
    + right. apply or_assoc. left. apply (Hvalue (missing_initial_state name)); [|exact Hbody].
      right. exists (PDict d). split; [reflexivity|]. right. exists d, name, data.
      split; [reflexivity|]. split; [exact Hin|]. left. reflexivity.
    + right. apply or_assoc. left. apply (Hvalue (empty_initial_state name)); [|exact Hbody].
      right. exists (PDict d). split; [reflexivity|]. right. exists d, name, data.
      split; [reflexivity|]. split; [exact Hin|]. right. reflexivity.
Qed.

End Environment.

(** *** [Main] is [Strict] with a console that never raises *)

Lemma bind_ext {A B} (m : M A) (k k' : A -> M B) :
  (forall a, k a = k' a) -> bind m k = bind m k'.
Proof. intros H. destruct m as [[a|e] t]; cbn; [now rewrite H | reflexivity]. Qed.

Lemma try_except_ext {A} (m : M A) (h h' : exn -> option (M A)) :
  (forall e, h e = h' e) -> try_except m h = try_except m h'.
Proof. intros H. destruct m as [[a|e] t]; cbn; [reflexivity | now rewrite H]. Qed.

Lemma quiet_protocol_checks content :
  Strict.protocol_checks Markup.quiet content = protocol_checks content.
Proof.
  rewrite protocol_checks_console.
  pose proof (protocol_checks_verdict content) as H.
  destruct (protocol_checks content) as [[[|]|e] t]; cbn in H; try reflexivity.
  destruct H as (msg & ->). reflexivity.
Qed.

Section Refinement.

Variable fs : string -> option string.
Variable safe_load : string -> option pyval.

Local Abbreviation loader := (Strict.yaml_only safe_load).

Lemma yaml_only_read_document path :
  Strict.read_document fs loader path = read_document fs safe_load path.
Proof.
  unfold Strict.read_document, read_document, Strict.yaml_only.
  destruct (fs path) as [contents|]; reflexivity.
Qed.

Lemma yaml_only_load path : Strict.load fs loader path = load fs safe_load path.
Proof. unfold Strict.load, load. now rewrite yaml_only_read_document. Qed.

Lemma quiet_validate_protocol_file path :
  Strict.validate_protocol_file fs loader Markup.quiet path
  = validate_protocol_file fs safe_load path.
Proof.
  unfold Strict.validate_protocol_file, validate_protocol_file,
    Strict.protocol_body, protocol_body.
  rewrite yaml_only_load, (bind_ext _ _ _ quiet_protocol_checks). reflexivity.
Qed.

Lemma quiet_validate_settings_file path :
  Strict.validate_settings_file fs loader Markup.quiet path
  = validate_settings_file fs safe_load path.
Proof.
  unfold Strict.validate_settings_file, validate_settings_file, Strict.settings_body.
  rewrite yaml_only_load. apply try_except_ext. intros [msg|le]; reflexivity.
Qed.

Lemma quiet_protocol_read path :
  Strict.protocol_read fs loader Markup.quiet path = protocol_read fs safe_load path.
Proof. unfold Strict.protocol_read, protocol_read. now rewrite yaml_only_load. Qed.

Lemma quiet_settings_read path :
  Strict.settings_read fs loader Markup.quiet path = settings_read fs safe_load path.
Proof. unfold Strict.settings_read, settings_read. now rewrite yaml_only_load. Qed.

(** With a console that accepts every line and a loader that fails with
    [YAMLError] only, [Strict.main] is [Main.main]. *)
Lemma quiet_main p s :
  Strict.main fs loader Markup.quiet p s = main fs safe_load p s.
Proof.
  unfold Strict.main, main, Strict.main_body, main_body.
  rewrite quiet_validate_protocol_file.
  assert (Hbody : forall m : M unit,
            bind m (fun _ =>
              bind (validate_protocol_file fs safe_load p) (fun valid =>
              bind (if valid then
                      bind (Strict.validate_settings_file fs loader Markup.quiet s)
                           (fun v => ret (verdict_truthy v))
                    else ret false) (fun both =>
              if both then
                bind (Strict.protocol_read fs loader Markup.quiet p)
                     (fun _ => Strict.settings_read fs loader Markup.quiet s)
              else ret tt)))
            = bind m (fun _ =>
              bind (validate_protocol_file fs safe_load p) (fun valid =>
              bind (if valid then
                      bind (validate_settings_file fs safe_load s)
                           (fun v => ret (verdict_truthy v))
                    else ret false) (fun both =>
              if both then
                bind (protocol_read fs safe_load p) (fun _ => settings_read fs safe_load s)
              else ret tt)))).
  { intros m. apply bind_ext. intros _. apply bind_ext. intros valid.
    rewrite quiet_validate_settings_file. apply bind_ext. intros both.
    now rewrite quiet_protocol_read, quiet_settings_read. }
  rewrite Hbody. apply try_except_ext. intros [msg|le]; reflexivity.
Qed.

End Refinement.

(** *** On concrete documents, with a console that raises on closing tags *)

Lemma closing_tag_console_raises :
  Markup.raises_on_closing_tags Markup.closing_tag_console.
Proof.
  intros msg markup message Hchars Herror. unfold Markup.closing_tag_console.
  rewrite Hchars, Herror. reflexivity.
Defined.

Section OnClosingTags.

Local Abbreviation every := Fixture.fs.
Local Abbreviation loading := Fixture.loading.
Local Abbreviation console := Markup.closing_tag_console.


Lemma validate_protocol_file_handler_raises_witness :
  Strict.validate_protocol_file every (loading (PDict Fixture.closing_tag_state)) console
    "p.yaml"
  = (Raise (LibError (MarkupError
       "closing tag '[/x]' at position 63 doesn't match any open tag")),
     [Open "p.yaml"]).
Proof.
  destruct (validate_protocol_file_handler_raises every
              (loading (PDict Fixture.closing_tag_state)) console "p.yaml")
    as (_ & _ & _ & H).
  exact (H closing_tag_console_raises eq_refl).
Defined.

Lemma precheck_failure_line_witness :
  Strict.main every (loading PNone) console "protocol.yaml" "machines.txt"
  = (Ok tt,
     [Print [Lit "[bold red]Error[/bold red]: "; Lit "The file '";
             Val (PStr "machines.txt");
             Lit "' is not a valid YAML file (must have .yaml or .yml extension)."]])
  /\ Strict.main every (loading PNone) console "protocol.yaml" "machines[/b].txt"
     = (Raise (LibError (MarkupError
          "closing tag '[/b]' at position 46 doesn't match any open tag")),
        []).
Proof.
  destruct (precheck_failure_line every (loading PNone) console) as (Hline & Hcrash).
  split.
  - destruct (Hline "protocol.yaml" "machines.txt") as (_ & _ & H).
    destruct H as (H & _).
    + discriminate.
    + apply yaml_suffix_spec. reflexivity.
    + intros H. apply yaml_suffix_spec in H. discriminate H.
    + apply H. reflexivity.
  - exact (Hcrash closing_tag_console_raises).
Defined.

Lemma validate_settings_file_first_machine_witness :
  Strict.validate_settings_file every (loading (PDict Fixture.unready)) console "s.yml"
  = (Ok Failed,
     [Open "s.yml";
      Print [Lit "[bold red]Error in settings files[/bold red]: "; Lit "Machine '";
             Val (PStr "m2"); Lit "' is missing an 'Initial_state'."]]).
Proof.
  destruct (validate_settings_file_first_machine every (loading (PDict Fixture.unready))
              console "s.yml" Fixture.unready eq_refl)
    as (_ & H & _).
  destruct (H ltac:(cbn; lia)
              [(AStr "m1", PDict [(AStr "Initial_state", PList [PStr "A"])])]
              (AStr "m2") [] [(AStr "m3", PNone)] eq_refl eq_refl) as (Hmissing & _).
  exact (proj2 (Hmissing eq_refl) eq_refl).
Defined.

Lemma main_handler_raises_witness :
  Strict.main every (loading PNone) console "a[/b].txt" "machines.yml"
  = (Raise (LibError (MarkupError
       "closing tag '[/b]' at position 39 doesn't match any open tag")),
     [])
  /\ exit_status (Strict.main every (loading PNone) console "a[/b].txt" "machines.yml") = 1%Z.
Proof.
  destruct (main_handler_raises every (loading PNone) console) as (_ & _ & _ & _ & H).
  apply (H closing_tag_console_raises). discriminate.
Defined.

Lemma missing_event_in_printed_table_witness :
  exists table,
    Strict.protocol_read every (loading (PDict Fixture.one_silent)) console "p.yaml"
    = (Ok tt, [Open "p.yaml"; Print [Lit "Protocol: "; Val (PStr "demo")];
               PrintTable table])
    /\ cell_of table "A" "Event" = Some "go | N/A | again".
Proof.
  destruct (missing_event_in_printed_table every (loading (PDict Fixture.one_silent)) console
              "p.yaml" Fixture.one_silent
              [PStr "A"; PStr "B"]
              [Fixture.arrow (AStr "A") (AStr "B") (PStr "go"); Fixture.silent "A" "A";
               Fixture.arrow (AStr "A") (AStr "B") (PStr "again")]
              [] (PStr "A") [PStr "B"]
              [Fixture.arrow (AStr "A") (AStr "B") (PStr "go")] (Fixture.silent "A" "A")
              [Fixture.arrow (AStr "A") (AStr "B") (PStr "again")]
              eq_refl eq_refl eq_refl eq_refl eq_refl eq_refl eq_refl eq_refl eq_refl
              eq_refl)
    as (table & row & Htable & _ & _ & _ & _ & _ & _ & Hread).
  exists table. split.
  - apply Hread; reflexivity.
  - vm_compute in Htable. injection Htable as <-. reflexivity.
Defined.

(** C10, as stated, fails on a document whose only state [A] is left by a
    transition without [event] and by one whose event is the integer 5: the
    join of the events raises [TypeError], and the projector prints the
    heading and no table, so no cell reads ["N/A"]. *)
Lemma missing_event_row_not_rendered :
  goes_from (PStr "A") (Fixture.silent "A" "A") = true
  /\ field "event" (Fixture.silent "A" "A") = None
  /\ lookup (AStr "transitions") Fixture.silent_and_numbered
     = Some (PList [Fixture.silent "A" "A";
                    Fixture.arrow (AStr "A") (AStr "A") (PAtom (AInt 5))])
  /\ protocol_table (PDict Fixture.silent_and_numbered) = Raise (LibError TypeError)
  /\ Strict.protocol_read every (loading (PDict Fixture.silent_and_numbered)) console "p.yaml"
     = (Raise (LibError TypeError),
        [Open "p.yaml"; Print [Lit "Protocol: "; Val (PStr "demo")]])
  /\ protocol_read every (Fixture.holding (PDict Fixture.silent_and_numbered)) "p.yaml"
     = (Raise (LibError TypeError),
        [Open "p.yaml"; Print [Lit "Protocol: "; Val (PStr "demo")]]).
Proof. repeat split; vm_compute; reflexivity. Qed.

Lemma typed_closing_tag_state : typed_protocol Fixture.closing_tag_state.
Proof.
  split; intros l H; cbn in H; injection H as <-; repeat constructor.
  - eexists; reflexivity.
  - intros to [= <-]. eexists; reflexivity.
Defined.

Lemma typed_checks_raise_only_on_the_console_witness :
  Strict.validate_protocol_file every (loading (PDict Fixture.closing_tag_state)) console
    "p.yaml"
    = (Ok true, [Open "p.yaml"])
  \/ exists body,
       let line := Lit "[bold red]Error:[/bold red] " :: body in
       (console (Print line) = None
        /\ Strict.validate_protocol_file every (loading (PDict Fixture.closing_tag_state))
             console "p.yaml"
           = (Ok false, [Open "p.yaml"; Print line]))
       \/ (exists error,
             console (Print line) = Some error
             /\ Strict.protocol_body every (loading (PDict Fixture.closing_tag_state))
                  console "p.yaml"
                = (Raise (LibError error), [Open "p.yaml"])).
Proof.
  exact (typed_checks_raise_only_on_the_console every
           (loading (PDict Fixture.closing_tag_state)) console "p.yaml"
           Fixture.closing_tag_state eq_refl typed_closing_tag_state).
Defined.

End OnClosingTags.
